(** * Automatic Channel Selection (hostapd ACS): model and verification

    A shallow embedding of the survey based ACS engine of hostapd
    (the C file of the engine and [src/ap/acs.h]).

    - Integers are [Z]; the wrap-around of the C types is written out
      ([u64], [u32]).
    - [long double] values and the operations the engine applies to them
      are an interface ([LongDouble]): the engine is written once over
      that interface, so what is proved of it holds for every
      implementation of the arithmetic.  The instance [xreal] further
      down (extended reals with exact finite arithmetic and the special
      values of IEEE 754) is used where a claim has to be evaluated.
    - The driver and the bring-up callback are collaborators outside the
      engine: they are a record of responses ([driver]).
    - Calls into the driver and the error line of [acs_fail] are the
      observable effects of a handler; they are collected in a trace. *)

From Stdlib Require Import String.
From Stdlib Require Import ZArith List Bool Lia Reals Lra.
Import ListNotations.

Open Scope Z_scope.

(** ** Machine integers *)

Definition u64 (z : Z) : Z := z mod 2 ^ 64.
Definition u32 (z : Z) : Z := z mod 2 ^ 32.

(** ** The arithmetic the engine borrows from the platform *)

(** [long double] with the operations the engine uses: conversion from an
    integer, [+], [*], [/], [log2] and the comparison [<]. *)
Class LongDouble : Type := {
  long_double : Type;
  ld_of_Z : Z -> long_double;
  ld_add : long_double -> long_double -> long_double;
  ld_mul : long_double -> long_double -> long_double;
  ld_div : long_double -> long_double -> long_double;
  ld_log2 : long_double -> long_double;
  ld_lt : long_double -> long_double -> bool
}.

(** The two bit masks the engine tests.  Their [#define]s live in headers
    that are not part of the sources at hand, so they are parameters. *)
Class AcsConstants : Type := {
  HOSTAPD_CHAN_DISABLED : Z;
  WPA_DRIVER_FLAGS_OFFCHANNEL_TX : Z
}.

(** [enum hostapd_chan_status]; [HOSTAPD_CHAN_VALID] is the value 0
    (comment in [acs_study_complete]). *)
Inductive hostapd_chan_status : Type :=
| HOSTAPD_CHAN_VALID
| HOSTAPD_CHAN_INVALID
| HOSTAPD_CHAN_ACS.

(** The continuation stored in [iface->scan_cb]. *)
Inductive scan_callback : Type :=
| acs_init_scan_complete_cb.

(** ** Data model *)

(** [struct freq_survey].  Its declaration is in a header outside the
    sources at hand: the time counters are taken as unsigned 64-bit ([u64],
    as in hostapd's [driver.h]) and the noise floor as a signed 8-bit dBm
    value (the [s8] parameter of [acs_survey_interference_factor]). *)
Record freq_survey : Type := {
  nf : Z;
  channel_time : Z;
  channel_time_busy : Z;
  channel_time_tx : Z
}.

Section Model.

Context {LD : LongDouble} {K : AcsConstants}.

(** [struct hostapd_channel_data]; [survey_list] is the [dl_list] of the
    channel, in list order. *)
Record hostapd_channel_data : Type := {
  chan : Z;
  freq : Z;
  flag : Z;
  survey_list : list freq_survey;
  survey_count : Z;
  min_nf : Z;
  survey_interference_factor : long_double
}.

(** [struct hostapd_hw_modes]: [num_channels] is the length of [channels]. *)
Record hostapd_hw_modes : Type := {
  channels : list hostapd_channel_data
}.

Definition num_channels (m : hostapd_hw_modes) : Z :=
  Z.of_nat (length (channels m)).

(** The part of [struct hostapd_config] the engine reads and writes. *)
Record hostapd_config : Type := {
  channel : Z;
  acs_num_req_surveys : Z;
  acs_roc_duration_ms : Z
}.

(** The part of [struct hostapd_iface] the engine reads and writes; the
    cursor and the counters are [unsigned int]. *)
Record hostapd_iface : Type := {
  conf : hostapd_config;
  current_mode : hostapd_hw_modes;
  off_channel_freq_idx : Z;
  chans_surveyed : Z;
  acs_num_completed_surveys : Z;
  lowest_nf : Z;
  drv_flags : Z;
  scan_cb : option scan_callback
}.

(** Field assignments. *)

Definition set_survey_list (l : list freq_survey) (c : hostapd_channel_data)
  : hostapd_channel_data :=
  {| chan := chan c; freq := freq c; flag := flag c;
     survey_list := l; survey_count := survey_count c; min_nf := min_nf c;
     survey_interference_factor := survey_interference_factor c |}.

Definition set_survey_count (n : Z) (c : hostapd_channel_data)
  : hostapd_channel_data :=
  {| chan := chan c; freq := freq c; flag := flag c;
     survey_list := survey_list c; survey_count := n; min_nf := min_nf c;
     survey_interference_factor := survey_interference_factor c |}.

Definition set_min_nf (n : Z) (c : hostapd_channel_data)
  : hostapd_channel_data :=
  {| chan := chan c; freq := freq c; flag := flag c;
     survey_list := survey_list c; survey_count := survey_count c; min_nf := n;
     survey_interference_factor := survey_interference_factor c |}.

Definition set_survey_interference_factor (x : long_double)
  (c : hostapd_channel_data) : hostapd_channel_data :=
  {| chan := chan c; freq := freq c; flag := flag c;
     survey_list := survey_list c; survey_count := survey_count c;
     min_nf := min_nf c;
     survey_interference_factor := x |}.

Definition set_channels (l : list hostapd_channel_data) (i : hostapd_iface)
  : hostapd_iface :=
  {| conf := conf i; current_mode := {| channels := l |};
     off_channel_freq_idx := off_channel_freq_idx i;
     chans_surveyed := chans_surveyed i;
     acs_num_completed_surveys := acs_num_completed_surveys i;
     lowest_nf := lowest_nf i; drv_flags := drv_flags i;
     scan_cb := scan_cb i |}.

Definition set_off_channel_freq_idx (n : Z) (i : hostapd_iface)
  : hostapd_iface :=
  {| conf := conf i; current_mode := current_mode i;
     off_channel_freq_idx := n;
     chans_surveyed := chans_surveyed i;
     acs_num_completed_surveys := acs_num_completed_surveys i;
     lowest_nf := lowest_nf i; drv_flags := drv_flags i;
     scan_cb := scan_cb i |}.

Definition set_chans_surveyed (n : Z) (i : hostapd_iface) : hostapd_iface :=
  {| conf := conf i; current_mode := current_mode i;
     off_channel_freq_idx := off_channel_freq_idx i;
     chans_surveyed := n;
     acs_num_completed_surveys := acs_num_completed_surveys i;
     lowest_nf := lowest_nf i; drv_flags := drv_flags i;
     scan_cb := scan_cb i |}.

Definition set_acs_num_completed_surveys (n : Z) (i : hostapd_iface)
  : hostapd_iface :=
  {| conf := conf i; current_mode := current_mode i;
     off_channel_freq_idx := off_channel_freq_idx i;
     chans_surveyed := chans_surveyed i;
     acs_num_completed_surveys := n;
     lowest_nf := lowest_nf i; drv_flags := drv_flags i;
     scan_cb := scan_cb i |}.

Definition set_lowest_nf (n : Z) (i : hostapd_iface) : hostapd_iface :=
  {| conf := conf i; current_mode := current_mode i;
     off_channel_freq_idx := off_channel_freq_idx i;
     chans_surveyed := chans_surveyed i;
     acs_num_completed_surveys := acs_num_completed_surveys i;
     lowest_nf := n; drv_flags := drv_flags i;
     scan_cb := scan_cb i |}.

Definition set_scan_cb (cb : option scan_callback) (i : hostapd_iface)
  : hostapd_iface :=
  {| conf := conf i; current_mode := current_mode i;
     off_channel_freq_idx := off_channel_freq_idx i;
     chans_surveyed := chans_surveyed i;
     acs_num_completed_surveys := acs_num_completed_surveys i;
     lowest_nf := lowest_nf i; drv_flags := drv_flags i;
     scan_cb := cb |}.

Definition set_conf_channel (n : Z) (i : hostapd_iface) : hostapd_iface :=
  {| conf := {| channel := n;
                acs_num_req_surveys := acs_num_req_surveys (conf i);
                acs_roc_duration_ms := acs_roc_duration_ms (conf i) |};
     current_mode := current_mode i;
     off_channel_freq_idx := off_channel_freq_idx i;
     chans_surveyed := chans_surveyed i;
     acs_num_completed_surveys := acs_num_completed_surveys i;
     lowest_nf := lowest_nf i; drv_flags := drv_flags i;
     scan_cb := scan_cb i |}.

(** [chan->flag & HOSTAPD_CHAN_DISABLED] as a C condition. *)
Definition chan_disabled (c : hostapd_channel_data) : bool :=
  negb (Z.land (flag c) HOSTAPD_CHAN_DISABLED =? 0).

(** [dl_list_empty]. *)
Definition dl_list_empty {A : Type} (l : list A) : bool :=
  match l with
  | [] => true
  | _ :: _ => false
  end.

(** ** Cleanup *)

(** [acs_clean_chan_surveys]: every survey is unlinked and freed. *)
Definition acs_clean_chan_surveys (c : hostapd_channel_data)
  : hostapd_channel_data :=
  if dl_list_empty (survey_list c) then c
  else fold_left (fun c' _ => set_survey_list (tl (survey_list c')) c')
                 (survey_list c) c.

(** The body of the loop of [acs_cleanup] for one channel. *)
Definition acs_cleanup_chan (c : hostapd_channel_data) : hostapd_channel_data :=
  let c := if negb (survey_count c =? 0) then acs_clean_chan_surveys c else c in
  let c := set_survey_list [] c in
  let c := set_min_nf 0 c in
  set_survey_count 0 c.

(** [acs_cleanup]. *)
Definition acs_cleanup (iface : hostapd_iface) : hostapd_iface :=
  let iface :=
    set_channels (map acs_cleanup_chan (channels (current_mode iface))) iface in
  let iface := set_chans_surveyed 0 iface in
  let iface := set_off_channel_freq_idx 0 iface in
  set_acs_num_completed_surveys 0 iface.

(** ** Scoring *)

(** The loop [while (pow--) result *= base] of [base_to_power], run for a
    counter that holds [n]: one multiplication per unit of the counter. *)
Fixpoint base_to_power_loop (n : nat) (base result : Z) : Z :=
  match n with
  | O => result
  | S n' => base_to_power_loop n' base (u64 (result * base))
  end.

(** [base_to_power]. *)
Definition base_to_power (base pow : Z) : Z :=
  let result := base in
  if pow =? 0 then 1
  else
    let pow := u64 (pow - 1) in
    base_to_power_loop (Z.to_nat pow) base result.

(** [acs_survey_interference_factor]: the subtractions are unsigned 64-bit,
    [survey->nf - min_nf] is an [int] converted to [u64] by the call; each
    integer is converted to [long double] where it meets [factor]. *)
Definition acs_survey_interference_factor (survey : freq_survey) (min_nf : Z)
  : long_double :=
  let factor :=
    ld_of_Z (u64 (channel_time_busy survey - channel_time_tx survey)) in
  let factor :=
    ld_div factor
           (ld_of_Z (u64 (channel_time survey - channel_time_tx survey))) in
  let factor :=
    ld_mul factor (ld_of_Z (base_to_power 2 (u64 (nf survey - min_nf)))) in
  ld_log2 factor.

(** [acs_chan_interference_factor]: the channel's accumulator is added to
    as it stands and then divided by [survey_count]. *)
Definition acs_chan_interference_factor (iface : hostapd_iface)
  (c : hostapd_channel_data) : hostapd_channel_data :=
  if dl_list_empty (survey_list c) || chan_disabled c then c
  else
    let c :=
      fold_left
        (fun c' survey =>
           let int_factor :=
             acs_survey_interference_factor survey (lowest_nf iface) in
           set_survey_interference_factor
             (ld_add (survey_interference_factor c') int_factor) c')
        (survey_list c) c in
    set_survey_interference_factor
      (ld_div (survey_interference_factor c) (ld_of_Z (survey_count c))) c.

(** [acs_usable_chan]. *)
Definition acs_usable_chan (c : hostapd_channel_data) : bool :=
  if survey_count c =? 0 then false
  else if dl_list_empty (survey_list c) then false
  else if chan_disabled c then false
  else true.

(** ** Selection *)

(** The loop of [acs_find_ideal_chan].  [done ++ rest] is the channel array,
    [done] the channels already visited; [ideal_chan] points into the array
    (an index), and the comparison reads the array through it.  The pointer
    always points at a visited channel ([acs_find_ideal_loop_visited]), so
    the lookup never misses. *)
Fixpoint acs_find_ideal_loop (iface : hostapd_iface)
  (done rest : list hostapd_channel_data) (ideal_chan : option nat)
  : list hostapd_channel_data * option nat :=
  match rest with
  | [] => (done, ideal_chan)
  | c :: rest' =>
    if negb (acs_usable_chan c) then
      acs_find_ideal_loop iface (done ++ [c]) rest' ideal_chan
    else
      let c := acs_chan_interference_factor iface c in
      let i := length done in
      let ideal_chan :=
        match ideal_chan with
        | None => Some i
        | Some j =>
          match nth_error (done ++ c :: rest') j with
          | Some cj =>
            if ld_lt (survey_interference_factor c)
                     (survey_interference_factor cj)
            then Some i else Some j
          | None => Some j
          end
        end in
      acs_find_ideal_loop iface (done ++ [c]) rest' ideal_chan
  end.

(** [acs_find_ideal_chan]: the channel array after the scan, and the
    returned pointer as the index with the record it points to ([None] is
    the null pointer). *)
Definition acs_find_ideal_chan (iface : hostapd_iface)
  : option (nat * hostapd_channel_data) * hostapd_iface :=
  let '(chs, ideal_chan) :=
    acs_find_ideal_loop iface [] (channels (current_mode iface)) None in
  (match ideal_chan with
   | None => None
   | Some j =>
     match nth_error chs j with
     | Some c => Some (j, c)
     | None => None
     end
   end,
   set_channels chs iface).

(** ** The collaborators *)

(** What the driver and the bring-up answer while one event is handled:
    the result of the scan request, of a remain-on-channel request (by
    frequency and duration), of a survey dump (which deposits into the
    interface), and of [hostapd_acs_completed]. *)
Record driver : Type := {
  hostapd_driver_scan : Z;
  hostapd_drv_remain_on_channel : Z -> Z -> Z;
  hostapd_drv_survey_freq : hostapd_iface -> Z -> Z * hostapd_iface;
  hostapd_acs_completed : hostapd_iface -> Z
}.

(** What a handler does that is seen from outside: its calls into the
    collaborators, each with the answer, and its [MSG_ERROR] lines. *)
Inductive acs_effect : Type :=
| DrvScan (err : Z)
| DrvRemainOnChannel (c : hostapd_channel_data) (f : Z) (duration : Z) (err : Z)
| DrvSurveyFreq (f : Z) (err : Z)
| AcsCompleted (status : Z)
| LogError (msg : string).

(** Handlers: state passing over the interface, with the trace written. *)
Definition ACS (A : Type) : Type :=
  hostapd_iface -> A * hostapd_iface * list acs_effect.

Definition ret {A : Type} (a : A) : ACS A :=
  fun iface => (a, iface, []).

Definition bind {A B : Type} (m : ACS A) (k : A -> ACS B) : ACS B :=
  fun iface =>
    let '(a, iface1, t1) := m iface in
    let '(b, iface2, t2) := k a iface1 in
    (b, iface2, t1 ++ t2).

Definition get : ACS hostapd_iface :=
  fun iface => (iface, iface, []).

Definition modify (f : hostapd_iface -> hostapd_iface) : ACS unit :=
  fun iface => (tt, f iface, []).

Definition emit (e : acs_effect) : ACS unit :=
  fun iface => (tt, iface, [e]).

Notation "x <- m ;; k" := (bind m (fun x => k))
  (at level 61, m at next level, right associativity).
Notation "m ;; k" := (bind m (fun _ => k))
  (at level 61, right associativity).

(** [acs_fail]. *)
Definition acs_fail : ACS unit :=
  emit (LogError "ACS: failed to start") ;;
  modify acs_cleanup.

(** ** The remain-on-channel iterator *)

(** The [for] loop of [acs_study_next_freq] from index [i] over the
    channels [rest] that are left; [None] when the loop runs off the end. *)
Fixpoint acs_study_next_freq_loop (d : driver) (i : Z)
  (rest : list hostapd_channel_data) : ACS (option hostapd_chan_status) :=
  match rest with
  | [] => ret None
  | c :: rest' =>
    if chan_disabled c then acs_study_next_freq_loop d (i + 1) rest'
    else
      iface <- get ;;
      let err :=
        hostapd_drv_remain_on_channel d (freq c)
          (acs_roc_duration_ms (conf iface)) in
      emit (DrvRemainOnChannel c (freq c)
              (acs_roc_duration_ms (conf iface)) err) ;;
      if err <? 0 then
        emit (LogError "ACS: request to go offchannel on freq %d MHz failed") ;;
        ret (Some HOSTAPD_CHAN_INVALID)
      else
        modify (set_off_channel_freq_idx i) ;;
        ret (Some HOSTAPD_CHAN_ACS)
  end.

(** [acs_study_next_freq]. *)
Definition acs_study_next_freq (d : driver) : ACS hostapd_chan_status :=
  iface <- get ;;
  if num_channels (current_mode iface) <? off_channel_freq_idx iface then
    emit (LogError "ACS: channel index out of bounds") ;;
    ret HOSTAPD_CHAN_INVALID
  else
    r <- acs_study_next_freq_loop d (off_channel_freq_idx iface)
           (skipn (Z.to_nat (off_channel_freq_idx iface))
                  (channels (current_mode iface))) ;;
    match r with
    | Some st => ret st
    | None =>
      iface <- get ;;
      if chans_surveyed iface =? 0 then
        emit (LogError "ACS: unable to survey any channel") ;;
        ret HOSTAPD_CHAN_INVALID
      else ret HOSTAPD_CHAN_VALID
    end.

(** ** The controller *)

(** [acs_study_complete] from [if (!iface->chans_surveyed)] on: decide,
    write the channel, hand over. *)
Definition acs_study_decide (d : driver) : ACS unit :=
  iface <- get ;;
  if chans_surveyed iface =? 0 then
    emit (LogError "ACS: unable to collect any useful survey data") ;;
    acs_fail
  else
    let '(ideal_chan, iface') := acs_find_ideal_chan iface in
    modify (fun _ => iface') ;;
    match ideal_chan with
    | None =>
      emit (LogError "ACS: although survey data was collected we were unable to compute an ideal channel") ;;
      acs_fail
    | Some (_, c) =>
      modify (set_conf_channel (chan c)) ;;
      iface <- get ;;
      let status := hostapd_acs_completed d iface in
      emit (AcsCompleted status) ;;
      if status =? 0 then modify acs_cleanup
      else
        emit (LogError "ACS: although things seemed fine we failed in the end") ;;
        acs_fail
    end.

(** [acs_study_complete]. *)
Definition acs_study_complete (d : driver) : ACS unit :=
  modify (fun iface =>
            set_acs_num_completed_surveys
              (u32 (acs_num_completed_surveys iface + 1)) iface) ;;
  iface <- get ;;
  if acs_num_completed_surveys iface <? acs_num_req_surveys (conf iface) then
    modify (set_off_channel_freq_idx 0) ;;
    st <- acs_study_next_freq d ;;
    match st with
    | HOSTAPD_CHAN_ACS => ret tt
    | HOSTAPD_CHAN_VALID =>
      emit (LogError "ACS: odd loop bug, report this...") ;;
      acs_fail
    | HOSTAPD_CHAN_INVALID => acs_fail
    end
  else acs_study_decide d.

(** [acs_roc_next]. *)
Definition acs_roc_next (d : driver) (f duration : Z) : ACS unit :=
  iface <- get ;;
  let '(err, iface') := hostapd_drv_survey_freq d iface f in
  modify (fun _ => iface') ;;
  emit (DrvSurveyFreq f err) ;;
  if negb (err =? 0) then
    emit (LogError "ACS: failed to get any survey data for freq %d MHz") ;;
    acs_fail
  else
    modify (fun iface =>
              set_off_channel_freq_idx
                (u32 (off_channel_freq_idx iface + 1)) iface) ;;
    st <- acs_study_next_freq d ;;
    match st with
    | HOSTAPD_CHAN_VALID => acs_study_complete d
    | HOSTAPD_CHAN_ACS => ret tt
    | HOSTAPD_CHAN_INVALID => acs_fail
    end.

(** [hostapd_notify_acs_roc]. *)
Definition hostapd_notify_acs_roc (f duration roc_status : Z) : ACS unit :=
  if negb (roc_status =? 0) then acs_fail else ret tt.

(** [hostapd_notify_acs_roc_cancel]. *)
Definition hostapd_notify_acs_roc_cancel (d : driver)
  (f duration roc_status : Z) : ACS unit :=
  if negb (roc_status =? 0) then acs_fail else acs_roc_next d f duration.

(** [acs_init_scan_complete]. *)
Definition acs_init_scan_complete (d : driver) : ACS unit :=
  modify acs_cleanup ;;
  modify (set_acs_num_completed_surveys 0) ;;
  st <- acs_study_next_freq d ;;
  match st with
  | HOSTAPD_CHAN_ACS => ret tt
  | HOSTAPD_CHAN_VALID | HOSTAPD_CHAN_INVALID => acs_fail
  end.

(** [acs_init_scan]. *)
Definition acs_init_scan (d : driver) : ACS Z :=
  let err := hostapd_driver_scan d in
  emit (DrvScan err) ;;
  if err <? 0 then
    emit (LogError "ACS: Failed to request initial scan") ;;
    ret (-1)
  else
    modify (set_scan_cb (Some acs_init_scan_complete_cb)) ;;
    ret 1.

(** [acs_sanity_check]. *)
Definition acs_sanity_check : ACS Z :=
  iface <- get ;;
  if negb (chans_surveyed iface =? 0) then
    emit (LogError "ACS: no usable channels found") ;;
    ret (-1)
  else if Z.land (drv_flags iface) WPA_DRIVER_FLAGS_OFFCHANNEL_TX =? 0 then
    emit (LogError "ACS: offchannel TX support required") ;;
    ret (-1)
  else ret 0.

(** [acs_init]. *)
Definition acs_init (d : driver) : ACS hostapd_chan_status :=
  err <- acs_sanity_check ;;
  if err <? 0 then ret HOSTAPD_CHAN_INVALID
  else
    err <- acs_init_scan d ;;
    if err <? 0 then ret HOSTAPD_CHAN_INVALID
    else if err =? 1 then ret HOSTAPD_CHAN_ACS
    else ret HOSTAPD_CHAN_INVALID.

(** ** Executions *)

(** The entry points of the engine as the events that reach it; an event
    carries the answers of the collaborators for the calls its handler
    makes.  A completed scan runs the continuation stored in [scan_cb]. *)
Inductive acs_event : Type :=
| EvAcsInit (d : driver)
| EvScanComplete (d : driver)
| EvRoc (f duration roc_status : Z)
| EvRocCancel (d : driver) (f duration roc_status : Z).

Definition acs_handle (ev : acs_event) : ACS unit :=
  match ev with
  | EvAcsInit d => acs_init d ;; ret tt
  | EvScanComplete d =>
    iface <- get ;;
    match scan_cb iface with
    | Some acs_init_scan_complete_cb => acs_init_scan_complete d
    | None => ret tt
    end
  | EvRoc f duration roc_status => hostapd_notify_acs_roc f duration roc_status
  | EvRocCancel d f duration roc_status =>
    hostapd_notify_acs_roc_cancel d f duration roc_status
  end.

Fixpoint acs_run (evs : list acs_event) : ACS unit :=
  match evs with
  | [] => ret tt
  | ev :: evs' => acs_handle ev ;; acs_run evs'
  end.

End Model.

(** ** Extended reals: an implementation of the arithmetic

    Finite values are real numbers and the finite operations are exact
    (no rounding, no overflow); zero, the infinities and NaN behave as
    IEEE 754 prescribes ([x / 0], [log2 0 = -inf], [inf - inf = NaN],
    comparisons with NaN are false).  The sign of a zero is not kept: every
    zero the engine divides by comes from an unsigned integer. *)

Inductive xreal : Type :=
| Fin (r : R)
| PInf
| NInf
| NaN.

Definition xreal_neg (x : xreal) : xreal :=
  match x with
  | Fin r => Fin (- r)
  | PInf => NInf
  | NInf => PInf
  | NaN => NaN
  end.

Definition xreal_add (x y : xreal) : xreal :=
  match x, y with
  | NaN, _ | _, NaN => NaN
  | Fin a, Fin b => Fin (a + b)
  | PInf, NInf | NInf, PInf => NaN
  | PInf, _ | _, PInf => PInf
  | NInf, _ | _, NInf => NInf
  end.

(** An infinity scaled by the finite [r]. *)
Definition xreal_scale_inf (inf : xreal) (r : R) : xreal :=
  if Req_dec_T r 0 then NaN
  else if Rlt_dec 0 r then inf else xreal_neg inf.

Definition xreal_mul (x y : xreal) : xreal :=
  match x, y with
  | NaN, _ | _, NaN => NaN
  | Fin a, Fin b => Fin (a * b)
  | Fin a, inf => xreal_scale_inf inf a
  | inf, Fin b => xreal_scale_inf inf b
  | PInf, PInf | NInf, NInf => PInf
  | PInf, NInf | NInf, PInf => NInf
  end.

Definition xreal_div (x y : xreal) : xreal :=
  match x, y with
  | NaN, _ | _, NaN => NaN
  | Fin a, Fin b =>
    if Req_dec_T b 0 then
      if Req_dec_T a 0 then NaN
      else if Rlt_dec 0 a then PInf else NInf
    else Fin (a / b)
  | Fin _, _ => Fin 0
  | inf, Fin b => if Rlt_dec b 0 then xreal_neg inf else inf
  | _, _ => NaN
  end.

Definition xreal_log2 (x : xreal) : xreal :=
  match x with
  | Fin a =>
    if Req_dec_T a 0 then NInf
    else if Rlt_dec 0 a then Fin (ln a / ln 2) else NaN
  | PInf => PInf
  | NInf | NaN => NaN
  end.

Definition xreal_lt (x y : xreal) : bool :=
  match x, y with
  | NaN, _ | _, NaN => false
  | Fin a, Fin b => if Rlt_dec a b then true else false
  | NInf, NInf | PInf, _ => false
  | NInf, _ => true
  | Fin _, PInf => true
  | Fin _, NInf => false
  end.

Definition xreal_long_double : LongDouble := {|
  long_double := xreal;
  ld_of_Z := fun z => Fin (IZR z);
  ld_add := xreal_add;
  ld_mul := xreal_mul;
  ld_div := xreal_div;
  ld_log2 := xreal_log2;
  ld_lt := xreal_lt
|}.

(** The same arithmetic with rounding: every finite result, and every
    converted integer, goes through [rnd]; the infinities and NaN are kept.
    With [rnd] the rounding to the nearest number of a binary format this
    is the arithmetic of that format, within its range. *)
Definition xreal_round (rnd : R -> R) (x : xreal) : xreal :=
  match x with
  | Fin r => Fin (rnd r)
  | _ => x
  end.

Definition rounded_long_double (rnd : R -> R) : LongDouble := {|
  long_double := xreal;
  ld_of_Z := fun z => Fin (rnd (IZR z));
  ld_add := fun x y => xreal_round rnd (xreal_add x y);
  ld_mul := fun x y => xreal_round rnd (xreal_mul x y);
  ld_div := fun x y => xreal_round rnd (xreal_div x y);
  ld_log2 := fun x => xreal_round rnd (xreal_log2 x);
  ld_lt := xreal_lt
|}.

(** Masks for running the engine on concrete inputs: bit 0 for
    [HOSTAPD_CHAN_DISABLED] and [0x8000] for
    [WPA_DRIVER_FLAGS_OFFCHANNEL_TX], as in hostapd's headers.  The inputs
    below only rely on a channel without flags being enabled and on a
    driver whose flags equal the mask having the capability. *)
Definition hostapd_masks : AcsConstants := {|
  HOSTAPD_CHAN_DISABLED := 1;
  WPA_DRIVER_FLAGS_OFFCHANNEL_TX := 32768
|}.

(** What the scoring formula of the specification denotes for a
    measurement and a reference noise floor: the real number
    [log2 ((busy - tx) / (time - tx) * 2 ^ (nf - nf_ref))], and minus
    infinity where the argument of the logarithm is zero. *)
Definition spec_factor_arg (s : freq_survey) (nf_ref : Z) : R :=
  (IZR (channel_time_busy s - channel_time_tx s)
   / IZR (channel_time s - channel_time_tx s)
   * IZR (2 ^ (nf s - nf_ref)))%R.

Definition spec_factor (s : freq_survey) (nf_ref : Z) : xreal :=
  xreal_log2 (Fin (spec_factor_arg s nf_ref)).

(** The data-model invariant of a measurement, with the ranges of its C
    types. *)
Definition survey_wf (s : freq_survey) : Prop :=
  0 <= channel_time_tx s <= channel_time_busy s /\
  channel_time_busy s <= channel_time s < 2 ^ 64 /\
  channel_time_tx s < channel_time s /\
  -128 <= nf s <= 127.

(** ** A driver that reports fixed survey data *)

Section Reporting.

Context {LD : LongDouble} {K : AcsConstants}.

Definition list_min_nf (l : list freq_survey) : Z :=
  match l with
  | [] => 0
  | s :: l' => fold_left Z.min (map nf l') (nf s)
  end.

Definition deposit_chan (f : Z) (reported : list freq_survey)
  (c : hostapd_channel_data) : hostapd_channel_data :=
  if (freq c =? f) && negb (chan_disabled c) then
    let l := survey_list c ++ reported in
    set_min_nf (list_min_nf l)
      (set_survey_count (Z.of_nat (length l)) (set_survey_list l c))
  else c.

Definition surveyed_chans (l : list hostapd_channel_data)
  : list hostapd_channel_data :=
  filter (fun c => negb (dl_list_empty (survey_list c))) l.

(** Modelled from the spec: the survey dump of the driver collaborator,
    whose code is not part of the sources at hand.  Section 6:
    [survey_freq] "synchronously deposits zero or more survey measurements
    into the channel record matching that frequency"; section 3:
    [survey_count] is the cardinality of [survey_list], [min_nf] the
    minimum [nf] over the channel's surveys (0 when unknown),
    [chans_surveyed] the count of channels that produced any survey data,
    [lowest_nf] the minimum [min_nf] across all channels; a DISABLED
    channel is never surveyed.  [reported f] is what the driver has
    measured on frequency [f]. *)
Definition survey_deposit (reported : Z -> list freq_survey)
  (iface : hostapd_iface) (f : Z) : Z * hostapd_iface :=
  let chs := map (deposit_chan f (reported f)) (channels (current_mode iface)) in
  let seen := surveyed_chans chs in
  let iface := set_channels chs iface in
  let iface := set_chans_surveyed (Z.of_nat (length seen)) iface in
  (0,
   match seen with
   | [] => iface
   | c :: seen' => set_lowest_nf (fold_left Z.min (map min_nf seen') (min_nf c)) iface
   end).

(** A driver that accepts every request, reports [reported] on a survey
    dump, and whose bring-up succeeds. *)
Definition reporting_driver (reported : Z -> list freq_survey) : driver := {|
  hostapd_driver_scan := 0;
  hostapd_drv_remain_on_channel := fun _ _ => 0;
  hostapd_drv_survey_freq := survey_deposit reported;
  hostapd_acs_completed := fun _ => 0
|}.

(** One whole invocation of the engine over the channels at frequencies
    [fs], one pass: start, scan completed, then for each frequency the
    dwell of [duration] starts and ends, both with status 0. *)
Definition acs_invocation (d : driver) (duration : Z) (fs : list Z)
  : list acs_event :=
  EvAcsInit d :: EvScanComplete d ::
  flat_map (fun f => [EvRoc f duration 0; EvRocCancel d f duration 0]) fs.

(** The interface after the events [evs]. *)
Definition iface_after (evs : list acs_event) (iface : hostapd_iface)
  : hostapd_iface :=
  snd (fst (acs_run evs iface)).

(** The effects of the events [evs]. *)
Definition trace_of (evs : list acs_event) (iface : hostapd_iface)
  : list acs_effect :=
  snd (acs_run evs iface).

End Reporting.

(** ** A two-channel scenario

    Channels 1 (2412 MHz) and 6 (2437 MHz), both enabled, one pass of 100 ms
    dwells, on a freshly allocated (zeroed) interface whose driver has the
    off-channel TX capability.  The driver's dump holds two measurements for
    2412 MHz (busy 1 of 256) and one for 2437 MHz (busy 1 of 128), all at a
    noise floor of -95 dBm. *)

Section Scenario.

Context {LD : LongDouble}.

#[local] Existing Instance hostapd_masks.

Definition fresh_chan (number f : Z) : hostapd_channel_data := {|
  chan := number; freq := f; flag := 0;
  survey_list := []; survey_count := 0; min_nf := 0;
  survey_interference_factor := ld_of_Z 0
|}.

Definition fresh_iface : hostapd_iface := {|
  conf := {| channel := 0; acs_num_req_surveys := 1;
             acs_roc_duration_ms := 100 |};
  current_mode := {| channels := [fresh_chan 1 2412; fresh_chan 6 2437] |};
  off_channel_freq_idx := 0;
  chans_surveyed := 0;
  acs_num_completed_surveys := 0;
  lowest_nf := 0;
  drv_flags := 32768;
  scan_cb := None
|}.

Definition survey_2412 : freq_survey := {|
  nf := -95; channel_time := 256; channel_time_busy := 1; channel_time_tx := 0
|}.

Definition survey_2437 : freq_survey := {|
  nf := -95; channel_time := 128; channel_time_busy := 1; channel_time_tx := 0
|}.

Definition reported_surveys (f : Z) : list freq_survey :=
  if f =? 2412 then [survey_2412; survey_2412]
  else if f =? 2437 then [survey_2437]
  else [].

Definition one_invocation : list acs_event :=
  acs_invocation (reporting_driver reported_surveys) 100 [2412; 2437].

(** The scores of the two channels after the first and after the second
    invocation, as [acs_chan_interference_factor] computes them. *)
Definition factor_2412 : long_double :=
  acs_survey_interference_factor survey_2412 (-95).

Definition factor_2437 : long_double :=
  acs_survey_interference_factor survey_2437 (-95).

Definition score_2412_first : long_double :=
  ld_div (ld_add (ld_add (ld_of_Z 0) factor_2412) factor_2412) (ld_of_Z 2).

Definition score_2437_first : long_double :=
  ld_div (ld_add (ld_of_Z 0) factor_2437) (ld_of_Z 1).

Definition score_2412_second : long_double :=
  ld_div (ld_add (ld_add score_2412_first factor_2412) factor_2412)
         (ld_of_Z 2).

Definition score_2437_second : long_double :=
  ld_div (ld_add score_2437_first factor_2437) (ld_of_Z 1).

(** The interface after the first invocation when channel 1 wins it. *)
Definition after_first : hostapd_iface := {|
  conf := {| channel := 1; acs_num_req_surveys := 1;
             acs_roc_duration_ms := 100 |};
  current_mode := {| channels :=
    [set_survey_interference_factor score_2412_first (fresh_chan 1 2412);
     set_survey_interference_factor score_2437_first (fresh_chan 6 2437)] |};
  off_channel_freq_idx := 0;
  chans_surveyed := 0;
  acs_num_completed_surveys := 0;
  lowest_nf := -95;
  drv_flags := 32768;
  scan_cb := Some acs_init_scan_complete_cb
|}.

(** The interface of the scenario once both channels hold their surveys. *)
Definition surveyed_iface : hostapd_iface :=
  snd (survey_deposit reported_surveys
         (snd (survey_deposit reported_surveys fresh_iface 2412)) 2437).

(** A measurement on a loud channel, 64 dB above a reference of -94 dBm. *)
Definition loud_survey : freq_survey := {|
  nf := -30; channel_time := 1000; channel_time_busy := 500;
  channel_time_tx := 0
|}.


(** A measurement over 1000 microseconds without transmission. *)
Definition plain_survey (busy noise : Z) : freq_survey := {|
  nf := noise; channel_time := 1000; channel_time_busy := busy;
  channel_time_tx := 0
|}.

(** A driver that refuses every remain-on-channel request. *)
Definition refusing_driver : driver := {|
  hostapd_driver_scan := 0;
  hostapd_drv_remain_on_channel := fun _ _ => -1;
  hostapd_drv_survey_freq := fun iface _ => (0, iface);
  hostapd_acs_completed := fun _ => 0
|}.

(** The fresh interface with channel 1 alone. *)
Definition single_iface : hostapd_iface :=
  set_channels [fresh_chan 1 2412] fresh_iface.

(** The fresh interface with a survey count left over. *)
Definition stale_iface : hostapd_iface := set_chans_surveyed 1 fresh_iface.

End Scenario.

(** ** Properties of executions *)

Section Properties.

Context {LD : LongDouble} {K : AcsConstants}.

(** The state [acs_cleanup] establishes. *)
Definition acs_clean (iface : hostapd_iface) : Prop :=
  Forall (fun c => survey_list c = [] /\ min_nf c = 0 /\ survey_count c = 0)
         (channels (current_mode iface)) /\
  chans_surveyed iface = 0 /\
  off_channel_freq_idx iface = 0 /\
  acs_num_completed_surveys iface = 0.

(** The effects that mark the end of an invocation: the line [acs_fail]
    logs, and a bring-up that answered [HOSTAPD_CHAN_VALID]. *)
Definition is_terminal_effect (e : acs_effect) : bool :=
  match e with
  | LogError msg => String.eqb msg "ACS: failed to start"
  | AcsCompleted status => status =? 0
  | _ => false
  end.

Definition acs_terminal (t : list acs_effect) : Prop :=
  existsb is_terminal_effect t = true.

Definition not_terminal (e : acs_effect) : bool :=
  negb (is_terminal_effect e).

(** A remain-on-channel request is in order when it is made for a channel
    that is not DISABLED, on that channel's frequency. *)
Definition roc_ok (e : acs_effect) : bool :=
  match e with
  | DrvRemainOnChannel c f _ _ => negb (chan_disabled c) && (f =? freq c)
  | _ => true
  end.

(** Every effect of [m], from every state, satisfies [P]. *)
Definition trace_all {A : Type} (P : acs_effect -> bool) (m : ACS A) : Prop :=
  forall iface, forallb P (snd (m iface)) = true.

(** [m] always ends in a state [acs_cleanup] has produced. *)
Definition cleans {A : Type} (m : ACS A) : Prop :=
  forall iface, exists x, snd (fst (m iface)) = acs_cleanup x.

(** [m] ends in such a state whenever its trace is terminal. *)
Definition settles {A : Type} (m : ACS A) : Prop :=
  forall iface,
    acs_terminal (snd (m iface)) ->
    exists x, snd (fst (m iface)) = acs_cleanup x.

(** The score the scan of [acs_find_ideal_chan] leaves in a channel. *)
Definition aggregate (iface : hostapd_iface) (c : hostapd_channel_data)
  : long_double :=
  survey_interference_factor (acs_chan_interference_factor iface c).

(** What the scan does to one channel of the array. *)
Definition scanned (iface : hostapd_iface) (c : hostapd_channel_data)
  : hostapd_channel_data :=
  if acs_usable_chan c then acs_chan_interference_factor iface c else c.

(** The pointer the scan keeps always points at a usable channel it has
    visited. *)
Definition ideal_visited (done : list hostapd_channel_data)
  (ideal_chan : option nat) : Prop :=
  match ideal_chan with
  | None => True
  | Some j =>
    exists cj, nth_error done j = Some cj /\ acs_usable_chan cj = true
  end.

(** The pointer the scan keeps points at a visited channel no visited
    usable channel beats, the first one with its score; it is null while
    no usable channel has been visited. *)
Definition ideal_best (done : list hostapd_channel_data)
  (ideal_chan : option nat) : Prop :=
  match ideal_chan with
  | None => forall c, In c done -> acs_usable_chan c = false
  | Some j =>
    exists cj, nth_error done j = Some cj /\ acs_usable_chan cj = true /\
      forall k ck, nth_error done k = Some ck -> acs_usable_chan ck = true ->
        ld_lt (survey_interference_factor ck) (survey_interference_factor cj)
        = false /\
        (survey_interference_factor ck = survey_interference_factor cj ->
         (j <= k)%nat)
  end.

(** [x] is not greater than [y], as the comparison of the arithmetic sees
    it. *)
Definition ld_le (x y : long_double) : Prop := ld_lt y x = false.

(** The operations the scoring function applies do not reverse the order:
    the conversion of an unsigned 64-bit integer, the division by a
    positive count, the multiplication by a non-negative count, the
    multiplication of a busy fraction by a value, and [log2] (in the
    source the [double] function of [math.h], with the conversions around
    it).  Operations that round their exact result with a non-decreasing
    rounding have these properties; nothing here asks for exactness. *)
Definition ld_monotone : Prop :=
  (forall a b, 0 <= a <= b -> b < 2 ^ 64 ->
     ld_le (ld_of_Z a) (ld_of_Z b)) /\
  (forall x y den, 0 < den < 2 ^ 64 -> ld_le x y ->
     ld_le (ld_div x (ld_of_Z den)) (ld_div y (ld_of_Z den))) /\
  (forall x y p, 0 <= p < 2 ^ 64 -> ld_le x y ->
     ld_le (ld_mul x (ld_of_Z p)) (ld_mul y (ld_of_Z p))) /\
  (forall a den x y, 0 <= a <= den -> 0 < den < 2 ^ 64 -> ld_le x y ->
     ld_le (ld_mul (ld_div (ld_of_Z a) (ld_of_Z den)) x)
           (ld_mul (ld_div (ld_of_Z a) (ld_of_Z den)) y)) /\
  (forall x y, ld_le x y -> ld_le (ld_log2 x) (ld_log2 y)).

(** The properties of [<] on [long double] the selection relies on. *)
Definition ld_lt_strict_order : Prop :=
  (forall x, ld_lt x x = false) /\
  (forall x y z, ld_lt x y = true -> ld_lt y z = true -> ld_lt x z = true).

End Properties.

(** ** Outcomes of handlers *)

Section Outcomes.

Context {LD : LongDouble} {K : AcsConstants}.

(** Running [m] from [iface] gives a result, a state and a trace that
    satisfy [Q]. *)
Definition ensures {A : Type} (m : ACS A) (iface : hostapd_iface)
  (Q : A -> hostapd_iface -> list acs_effect -> Prop) : Prop :=
  Q (fst (fst (m iface))) (snd (fst (m iface))) (snd (m iface)).

(** Remain-on-channel requests in a trace, and those the driver accepted. *)
Definition is_roc (e : acs_effect) : bool :=
  match e with
  | DrvRemainOnChannel _ _ _ _ => true
  | _ => false
  end.

Definition roc_count (t : list acs_effect) : nat :=
  length (filter is_roc t).

Definition accepted_roc (e : acs_effect) : bool :=
  match e with
  | DrvRemainOnChannel _ _ _ err => 0 <=? err
  | _ => false
  end.

(** Calls of the bring-up and of the scan in a trace. *)
Definition is_completed (e : acs_effect) : bool :=
  match e with
  | AcsCompleted _ => true
  | _ => false
  end.

Definition is_scan (e : acs_effect) : bool :=
  match e with
  | DrvScan _ => true
  | _ => false
  end.

(** The cursor is an index into the channel array, or one past its end. *)
Definition cursor_in_range (iface : hostapd_iface) : Prop :=
  0 <= off_channel_freq_idx iface <= num_channels (current_mode iface).

(** No channel holds survey data and the two survey counters are zero. *)
Definition survey_data_clean (iface : hostapd_iface) : Prop :=
  Forall (fun c => survey_list c = [] /\ min_nf c = 0 /\ survey_count c = 0)
         (channels (current_mode iface)) /\
  chans_surveyed iface = 0 /\
  acs_num_completed_surveys iface = 0.

(** The sum [acs_chan_interference_factor] accumulates: the factors of the
    surveys added, in list order, to what the accumulator holds. *)
Definition accumulated (iface : hostapd_iface) (c : hostapd_channel_data)
  : long_double :=
  fold_left ld_add
    (map (fun survey =>
            acs_survey_interference_factor survey (lowest_nf iface))
         (survey_list c))
    (survey_interference_factor c).

(** The frequencies of the remain-on-channel requests of a trace, in
    order. *)
Definition roc_freqs (t : list acs_effect) : list Z :=
  flat_map (fun e => match e with
                     | DrvRemainOnChannel _ f _ _ => [f]
                     | _ => []
                     end) t.

(** The frequencies of the channels that are not DISABLED, in array
    order. *)
Definition enabled_freqs (l : list hostapd_channel_data) : list Z :=
  map freq (filter (fun c => negb (chan_disabled c)) l).

(** What the mode description says of each channel: flags and frequency. *)
Definition radio (l : list hostapd_channel_data) : list (Z * Z) :=
  map (fun c => (flag c, freq c)) l.

(** A driver that accepts every remain-on-channel request and whose survey
    dump succeeds, leaving the flags and frequencies of the channels and
    the cursor as they are. *)
Definition cooperative (d : driver) : Prop :=
  (forall f duration, 0 <= hostapd_drv_remain_on_channel d f duration) /\
  (forall iface f,
     fst (hostapd_drv_survey_freq d iface f) = 0 /\
     radio (channels (current_mode (snd (hostapd_drv_survey_freq d iface f))))
     = radio (channels (current_mode iface)) /\
     off_channel_freq_idx (snd (hostapd_drv_survey_freq d iface f))
     = off_channel_freq_idx iface).

(** The enabled frequencies after the channel under the cursor. *)
Definition pending (iface : hostapd_iface) : list Z :=
  enabled_freqs (skipn (Z.to_nat (off_channel_freq_idx iface + 1))
                       (channels (current_mode iface))).

(** Dwells that start and end with status 0, one per element of [fs]. *)
Definition dwells (d : driver) (duration : Z) (fs : list Z)
  : list acs_event :=
  flat_map (fun f => [EvRoc f duration 0; EvRocCancel d f duration 0]) fs.

(** What one call of [acs_study_next_freq] from [iface] can amount to. *)
Definition study_next_post (iface : hostapd_iface)
  (st : hostapd_chan_status) (iface' : hostapd_iface)
  (t : list acs_effect) : Prop :=
  match st with
  | HOSTAPD_CHAN_ACS =>
    (exists j, off_channel_freq_idx iface <= j
                 < num_channels (current_mode iface) /\
               iface' = set_off_channel_freq_idx j iface) /\
    roc_count t = 1%nat /\
    existsb accepted_roc t = true /\
    existsb is_terminal_effect t = false /\
    existsb is_completed t = false
  | HOSTAPD_CHAN_VALID =>
    iface' = iface /\ t = [] /\ chans_surveyed iface <> 0
  | HOSTAPD_CHAN_INVALID =>
    iface' = iface /\ (roc_count t <= 1)%nat /\
    existsb accepted_roc t = false /\
    existsb is_terminal_effect t = false /\
    existsb is_completed t = false
  end.

(** A handler has either put exactly one dwell under way, accepted by the
    driver, and not ended the invocation; or it has ended the invocation,
    in the clean state, without an accepted request. *)
Definition dwell_or_done (iface' : hostapd_iface) (t : list acs_effect)
  : Prop :=
  (roc_count t = 1%nat /\ existsb accepted_roc t = true /\
   existsb is_terminal_effect t = false /\ cursor_in_range iface' /\
   off_channel_freq_idx iface' < num_channels (current_mode iface')) \/
  ((roc_count t <= 1)%nat /\ existsb accepted_roc t = false /\
   acs_terminal t /\ acs_clean iface').

(** The decision of [acs_study_complete]: the invocation ends in the clean
    state without a new request; [conf] is as it was unless the bring-up
    was called, and then [conf.channel] holds the number of a usable
    channel. *)
Definition decided (iface iface' : hostapd_iface) (t : list acs_effect)
  : Prop :=
  acs_terminal t /\ roc_count t = 0%nat /\ acs_clean iface' /\
  ((existsb is_completed t = false /\ conf iface' = conf iface) \/
   (existsb is_completed t = true /\ chans_surveyed iface <> 0 /\
    exists j c,
      nth_error (channels (current_mode iface)) j = Some c /\
      acs_usable_chan c = true /\
      conf iface' = conf (set_conf_channel (chan c) iface))).

(** What [acs_study_complete] from [iface] can amount to: with passes
    left, the next pass starts with one accepted dwell and only the pass
    counter and the cursor change, or it fails; with no pass left, the
    engine decides. *)
Definition study_complete_post (iface iface' : hostapd_iface)
  (t : list acs_effect) : Prop :=
  let passes := u32 (acs_num_completed_surveys iface + 1) in
  if passes <? acs_num_req_surveys (conf iface) then
    (roc_count t = 1%nat /\ existsb accepted_roc t = true /\
     existsb is_terminal_effect t = false /\
     exists j, 0 <= j < num_channels (current_mode iface) /\
       iface' = set_off_channel_freq_idx j
                  (set_acs_num_completed_surveys passes iface)) \/
    ((roc_count t <= 1)%nat /\ existsb accepted_roc t = false /\
     acs_terminal t /\ existsb is_completed t = false /\
     iface' = acs_cleanup iface)
  else decided iface iface' t.

End Outcomes.

(** * Verification *)

(** ** [base_to_power] *)

Lemma base_to_power_loop_spec (n : nat) (base result : Z) :
  0 <= result < 2 ^ 64 ->
  base_to_power_loop n base result = (result * base ^ Z.of_nat n) mod 2 ^ 64.
Proof.
  revert result.
  induction n as [|n IH]; intros result Hr.
  - cbn [base_to_power_loop]. change (Z.of_nat 0) with 0.
    rewrite Z.pow_0_r, Z.mul_1_r, Z.mod_small; [reflexivity | exact Hr].
  - cbn [base_to_power_loop].
    rewrite IH by (unfold u64; apply Z.mod_pos_bound; lia).
    unfold u64. rewrite Z.mul_mod_idemp_l by lia.
    rewrite Nat2Z.inj_succ, Z.pow_succ_r by lia.
    f_equal. ring.
Qed.

Lemma base_to_power_spec (base pow : Z) :
  0 <= base < 2 ^ 64 ->
  0 <= pow < 2 ^ 64 ->
  base_to_power base pow = base ^ pow mod 2 ^ 64.
Proof.
  intros Hb Hp. unfold base_to_power.
  destruct (Z.eqb_spec pow 0) as [->|Hne].
  - reflexivity.
  - assert (Hu : u64 (pow - 1) = pow - 1)
      by (unfold u64; apply Z.mod_small; lia).
    rewrite Hu, base_to_power_loop_spec by exact Hb.
    rewrite Z2Nat.id by lia.
    rewrite <- Z.pow_succ_r by lia.
    f_equal. f_equal. lia.
Qed.

(** C10. For 64-bit unsigned [base] and [pow], [base_to_power base pow] is
    [base ^ pow] modulo [2 ^ 64]; it is 1 for [pow = 0] and [base] for
    [pow = 1]. *)
Theorem base_to_power_correct (base pow : Z) :
  0 <= base < 2 ^ 64 ->
  0 <= pow < 2 ^ 64 ->
  base_to_power base pow = base ^ pow mod 2 ^ 64 /\
  base_to_power base 0 = 1 /\
  base_to_power base 1 = base.
Proof.
  intros Hb Hp.
  split; [apply base_to_power_spec; assumption|].
  split; [reflexivity|].
  rewrite base_to_power_spec by lia.
  rewrite Z.pow_1_r. apply Z.mod_small. exact Hb.
Qed.

Lemma base_to_power_correct_witness :
  base_to_power 2 64 = 2 ^ 64 mod 2 ^ 64 /\
  base_to_power 2 0 = 1 /\
  base_to_power 2 1 = 2.
Proof.
  apply (base_to_power_correct 2 64); lia.
Defined.

Section Proofs.

Context {LD : LongDouble} {K : AcsConstants}.

(** ** Cleanup: frame and effect *)

Lemma acs_clean_fold_frame (l : list freq_survey) (c : hostapd_channel_data) :
  let c' :=
    fold_left (fun c' (_ : freq_survey) =>
                 set_survey_list (tl (survey_list c')) c') l c in
  chan c' = chan c /\ freq c' = freq c /\ flag c' = flag c /\
  survey_count c' = survey_count c /\ min_nf c' = min_nf c /\
  survey_interference_factor c' = survey_interference_factor c.
Proof.
  revert c.
  induction l as [|s l IH]; intros c; cbn [fold_left]; [cbn; tauto|].
  specialize (IH (set_survey_list (tl (survey_list c)) c)).
  cbn in IH. exact IH.
Qed.

Lemma acs_clean_chan_surveys_frame (c : hostapd_channel_data) :
  chan (acs_clean_chan_surveys c) = chan c /\
  freq (acs_clean_chan_surveys c) = freq c /\
  flag (acs_clean_chan_surveys c) = flag c /\
  survey_count (acs_clean_chan_surveys c) = survey_count c /\
  min_nf (acs_clean_chan_surveys c) = min_nf c /\
  survey_interference_factor (acs_clean_chan_surveys c)
  = survey_interference_factor c.
Proof.
  unfold acs_clean_chan_surveys.
  destruct (dl_list_empty (survey_list c)); [tauto|].
  apply acs_clean_fold_frame.
Qed.

Lemma acs_cleanup_chan_frame (c : hostapd_channel_data) :
  chan (acs_cleanup_chan c) = chan c /\
  freq (acs_cleanup_chan c) = freq c /\
  flag (acs_cleanup_chan c) = flag c /\
  survey_interference_factor (acs_cleanup_chan c)
  = survey_interference_factor c.
Proof.
  unfold acs_cleanup_chan.
  destruct (negb (survey_count c =? 0)); cbn; [|tauto].
  pose proof (acs_clean_chan_surveys_frame c). tauto.
Qed.

Lemma acs_cleanup_chan_effect (c : hostapd_channel_data) :
  survey_list (acs_cleanup_chan c) = [] /\
  min_nf (acs_cleanup_chan c) = 0 /\
  survey_count (acs_cleanup_chan c) = 0.
Proof.
  unfold acs_cleanup_chan. cbn. tauto.
Qed.

(** C9. [acs_cleanup] leaves every field other than the channels'
    [survey_list], [min_nf], [survey_count] and the interface's
    [chans_surveyed], [off_channel_freq_idx], [acs_num_completed_surveys]
    as it was: the configuration (with [conf.channel]), [lowest_nf], the
    driver flags, the stored continuation, and per channel (in order) the
    number, frequency, flags and [survey_interference_factor]. *)
Theorem acs_cleanup_frame (iface : hostapd_iface) :
  conf (acs_cleanup iface) = conf iface /\
  lowest_nf (acs_cleanup iface) = lowest_nf iface /\
  drv_flags (acs_cleanup iface) = drv_flags iface /\
  scan_cb (acs_cleanup iface) = scan_cb iface /\
  map chan (channels (current_mode (acs_cleanup iface)))
  = map chan (channels (current_mode iface)) /\
  map freq (channels (current_mode (acs_cleanup iface)))
  = map freq (channels (current_mode iface)) /\
  map flag (channels (current_mode (acs_cleanup iface)))
  = map flag (channels (current_mode iface)) /\
  map survey_interference_factor (channels (current_mode (acs_cleanup iface)))
  = map survey_interference_factor (channels (current_mode iface)).
Proof.
  unfold acs_cleanup. cbn.
  repeat split; rewrite map_map; apply map_ext; intros c;
    pose proof (acs_cleanup_chan_frame c); tauto.
Qed.

Lemma acs_cleanup_clean (iface : hostapd_iface) :
  acs_clean (acs_cleanup iface).
Proof.
  unfold acs_clean, acs_cleanup. cbn.
  repeat split.
  apply Forall_forall. intros c Hc.
  apply in_map_iff in Hc. destruct Hc as [c0 [<- _]].
  apply acs_cleanup_chan_effect.
Qed.

Lemma acs_cleanup_chan_idem (c : hostapd_channel_data) :
  acs_cleanup_chan (acs_cleanup_chan c) = acs_cleanup_chan c.
Proof.
  unfold acs_cleanup_chan at 1.
  destruct (acs_cleanup_chan_effect c) as [Hl [Hm Hc]].
  rewrite Hc. cbn.
  unfold acs_cleanup_chan. cbn. reflexivity.
Qed.

Lemma acs_cleanup_idem (iface : hostapd_iface) :
  acs_cleanup (acs_cleanup iface) = acs_cleanup iface.
Proof.
  unfold acs_cleanup. cbn.
  rewrite map_map.
  rewrite (map_ext _ _ acs_cleanup_chan_idem).
  reflexivity.
Qed.

(** ** Traces of handlers *)

Lemma trace_all_ret {A : Type} (P : acs_effect -> bool) (a : A) :
  trace_all P (ret a).
Proof. intros iface. reflexivity. Qed.

Lemma trace_all_get (P : acs_effect -> bool) : trace_all P get.
Proof. intros iface. reflexivity. Qed.

Lemma trace_all_modify (P : acs_effect -> bool)
  (f : hostapd_iface -> hostapd_iface) : trace_all P (modify f).
Proof. intros iface. reflexivity. Qed.

Lemma trace_all_emit (P : acs_effect -> bool) (e : acs_effect) :
  P e = true -> trace_all P (emit e).
Proof. intros He iface. cbn. rewrite He. reflexivity. Qed.

Lemma trace_all_bind {A B : Type} (P : acs_effect -> bool)
  (m : ACS A) (k : A -> ACS B) :
  trace_all P m -> (forall a, trace_all P (k a)) -> trace_all P (bind m k).
Proof.
  intros Hm Hk iface. unfold bind.
  specialize (Hm iface).
  destruct (m iface) as [[a iface1] t1].
  specialize (Hk a iface1).
  destruct (k a iface1) as [[b iface2] t2].
  cbn in *. rewrite forallb_app, Hm, Hk. reflexivity.
Qed.

Lemma cleans_bind {A B : Type} (m : ACS A) (k : A -> ACS B) :
  (forall a, cleans (k a)) -> cleans (bind m k).
Proof.
  intros Hk iface. unfold bind.
  destruct (m iface) as [[a iface1] t1].
  specialize (Hk a iface1).
  destruct (k a iface1) as [[b iface2] t2].
  exact Hk.
Qed.

Lemma cleans_modify_cleanup : cleans (modify acs_cleanup).
Proof. intros iface. exists iface. reflexivity. Qed.

Lemma cleans_fail : cleans acs_fail.
Proof. apply cleans_bind. intros _. apply cleans_modify_cleanup. Qed.

Lemma cleans_settles {A : Type} (m : ACS A) : cleans m -> settles m.
Proof. intros H iface _. apply H. Qed.

Lemma quiet_not_terminal (t : list acs_effect) :
  forallb not_terminal t = true -> existsb is_terminal_effect t = false.
Proof.
  induction t as [|e t IH]; cbn; [reflexivity|].
  intros H. apply andb_true_iff in H. destruct H as [He Ht].
  unfold not_terminal in He. apply negb_true_iff in He.
  rewrite He, IH by exact Ht. reflexivity.
Qed.

Lemma quiet_settles {A : Type} (m : ACS A) :
  trace_all not_terminal m -> settles m.
Proof.
  intros H iface Ht. unfold acs_terminal in Ht.
  rewrite quiet_not_terminal in Ht by apply H. discriminate.
Qed.

Lemma settles_bind {A B : Type} (m : ACS A) (k : A -> ACS B) :
  trace_all not_terminal m -> (forall a, settles (k a)) -> settles (bind m k).
Proof.
  intros Hm Hk iface. unfold bind, acs_terminal.
  specialize (Hm iface).
  destruct (m iface) as [[a iface1] t1].
  specialize (Hk a iface1).
  destruct (k a iface1) as [[b iface2] t2].
  cbn in *. rewrite existsb_app, (quiet_not_terminal _ Hm). cbn.
  exact Hk.
Qed.

Ltac trace_step :=
  first
    [ apply trace_all_ret
    | apply trace_all_get
    | apply trace_all_modify
    | apply trace_all_emit; reflexivity
    | apply trace_all_bind; [|intros ?]
    | match goal with
      | |- trace_all _ (if ?b then _ else _) => destruct b
      | |- trace_all _ (match ?x with _ => _ end) => destruct x
      end ].

Ltac trace_solve tac := repeat first [ tac | trace_step ].

Lemma acs_study_next_freq_loop_quiet (d : driver) (rest : list hostapd_channel_data)
  (i : Z) : trace_all not_terminal (acs_study_next_freq_loop d i rest).
Proof.
  revert i.
  induction rest as [|c rest IH]; intros i; cbn [acs_study_next_freq_loop].
  - trace_step.
  - destruct (chan_disabled c); [apply IH|].
    trace_solve fail.
Qed.

Lemma acs_study_next_freq_quiet (d : driver) :
  trace_all not_terminal (acs_study_next_freq d).
Proof.
  unfold acs_study_next_freq.
  trace_solve ltac:(apply acs_study_next_freq_loop_quiet).
Qed.

Lemma acs_study_next_freq_loop_roc_ok (d : driver)
  (rest : list hostapd_channel_data) (i : Z) :
  trace_all roc_ok (acs_study_next_freq_loop d i rest).
Proof.
  revert i.
  induction rest as [|c rest IH]; intros i; cbn [acs_study_next_freq_loop].
  - trace_step.
  - destruct (chan_disabled c) eqn:Hc; [apply IH|].
    trace_solve ltac:(apply trace_all_emit; cbn; rewrite Hc, Z.eqb_refl;
                      reflexivity).
Qed.

Lemma acs_study_next_freq_roc_ok (d : driver) :
  trace_all roc_ok (acs_study_next_freq d).
Proof.
  unfold acs_study_next_freq.
  trace_solve ltac:(apply acs_study_next_freq_loop_roc_ok).
Qed.

Lemma acs_fail_roc_ok : trace_all roc_ok acs_fail.
Proof. unfold acs_fail. trace_solve fail. Qed.

Lemma acs_study_decide_roc_ok (d : driver) :
  trace_all roc_ok (acs_study_decide d).
Proof.
  unfold acs_study_decide.
  trace_solve ltac:(apply acs_fail_roc_ok).
Qed.

Lemma acs_study_complete_roc_ok (d : driver) :
  trace_all roc_ok (acs_study_complete d).
Proof.
  unfold acs_study_complete.
  trace_solve ltac:(first [ apply acs_fail_roc_ok
                          | apply acs_study_next_freq_roc_ok
                          | apply acs_study_decide_roc_ok ]).
Qed.

Lemma acs_roc_next_roc_ok (d : driver) (f duration : Z) :
  trace_all roc_ok (acs_roc_next d f duration).
Proof.
  unfold acs_roc_next.
  trace_solve ltac:(first [ apply acs_fail_roc_ok
                          | apply acs_study_next_freq_roc_ok
                          | apply acs_study_complete_roc_ok ]).
Qed.

Lemma acs_init_roc_ok (d : driver) : trace_all roc_ok (acs_init d).
Proof.
  unfold acs_init, acs_sanity_check, acs_init_scan.
  trace_solve fail.
Qed.

Lemma acs_init_scan_complete_roc_ok (d : driver) :
  trace_all roc_ok (acs_init_scan_complete d).
Proof.
  unfold acs_init_scan_complete.
  trace_solve ltac:(first [ apply acs_fail_roc_ok
                          | apply acs_study_next_freq_roc_ok ]).
Qed.

Lemma acs_handle_roc_ok (ev : acs_event) : trace_all roc_ok (acs_handle ev).
Proof.
  destruct ev as [d|d|f duration roc_status|d f duration roc_status];
    cbn [acs_handle];
    unfold hostapd_notify_acs_roc, hostapd_notify_acs_roc_cancel;
    trace_solve ltac:(first [ apply acs_fail_roc_ok
                            | apply acs_init_roc_ok
                            | apply acs_init_scan_complete_roc_ok
                            | apply acs_roc_next_roc_ok ]).
Qed.

Lemma acs_run_roc_ok (evs : list acs_event) : trace_all roc_ok (acs_run evs).
Proof.
  induction evs as [|ev evs IH]; cbn [acs_run].
  - trace_step.
  - trace_step; [apply acs_handle_roc_ok | exact IH].
Qed.

(** ** Terminal transitions end in the clean state *)

Ltac cleans_solve tac :=
  repeat first
    [ tac
    | apply cleans_fail
    | apply cleans_modify_cleanup
    | apply cleans_bind; intros ?
    | match goal with
      | |- cleans (if ?b then _ else _) => destruct b
      | |- cleans (match ?x with _ => _ end) => destruct x
      end ].

Lemma acs_study_decide_cleans (d : driver) : cleans (acs_study_decide d).
Proof. unfold acs_study_decide. cleans_solve fail. Qed.

Ltac quiet_solve :=
  trace_solve ltac:(apply acs_study_next_freq_quiet).

Ltac settles_solve tac :=
  repeat first
    [ tac
    | apply cleans_settles;
      solve [cleans_solve ltac:(apply acs_study_decide_cleans)]
    | apply quiet_settles; solve [quiet_solve]
    | apply settles_bind; [solve [quiet_solve] | intros ?]
    | match goal with
      | |- settles (if ?b then _ else _) => destruct b
      | |- settles (match ?x with _ => _ end) => destruct x
      end ].

Lemma acs_study_complete_settles (d : driver) :
  settles (acs_study_complete d).
Proof. unfold acs_study_complete. settles_solve fail. Qed.

Lemma acs_roc_next_settles (d : driver) (f duration : Z) :
  settles (acs_roc_next d f duration).
Proof.
  unfold acs_roc_next.
  settles_solve ltac:(apply acs_study_complete_settles).
Qed.

Lemma acs_init_scan_complete_settles (d : driver) :
  settles (acs_init_scan_complete d).
Proof. unfold acs_init_scan_complete. settles_solve fail. Qed.

Lemma acs_init_quiet (d : driver) : trace_all not_terminal (acs_init d).
Proof.
  unfold acs_init, acs_sanity_check, acs_init_scan.
  trace_solve fail.
Qed.

Lemma acs_handle_settles (ev : acs_event) : settles (acs_handle ev).
Proof.
  destruct ev as [d|d|f duration roc_status|d f duration roc_status];
    cbn [acs_handle];
    unfold hostapd_notify_acs_roc, hostapd_notify_acs_roc_cancel.
  - apply quiet_settles.
    trace_solve ltac:(apply acs_init_quiet).
  - settles_solve ltac:(apply acs_init_scan_complete_settles).
  - settles_solve fail.
  - settles_solve ltac:(apply acs_roc_next_settles).
Qed.

(** C8. After a terminal transition of the controller (the handler's
    trace holds the line of [acs_fail], or a bring-up that answered VALID)
    every channel's survey list is empty, its [min_nf] and [survey_count]
    are zero, [chans_surveyed], [off_channel_freq_idx] and
    [acs_num_completed_surveys] are zero, and running [acs_cleanup] once
    more leaves that state as it is. *)
Theorem acs_terminal_state_clean (ev : acs_event) (iface : hostapd_iface) :
  acs_terminal (snd (acs_handle ev iface)) ->
  acs_clean (snd (fst (acs_handle ev iface))) /\
  acs_cleanup (snd (fst (acs_handle ev iface)))
  = snd (fst (acs_handle ev iface)).
Proof.
  intros Ht.
  destruct (acs_handle_settles ev iface Ht) as [x Hx].
  rewrite Hx. split.
  - apply acs_cleanup_clean.
  - apply acs_cleanup_idem.
Qed.

(** ** The scan of the selector *)

Lemma acif_fold_frame (iface : hostapd_iface) (l : list freq_survey)
  (c : hostapd_channel_data) :
  let c' :=
    fold_left
      (fun c' survey =>
         set_survey_interference_factor
           (ld_add (survey_interference_factor c')
                   (acs_survey_interference_factor survey (lowest_nf iface)))
           c') l c in
  chan c' = chan c /\ freq c' = freq c /\ flag c' = flag c /\
  survey_list c' = survey_list c /\ survey_count c' = survey_count c /\
  min_nf c' = min_nf c.
Proof.
  revert c.
  induction l as [|s l IH]; intros c; cbn [fold_left]; [cbn; tauto|].
  match goal with
  | |- context [fold_left _ l ?c0] => specialize (IH c0)
  end.
  cbn in IH. exact IH.
Qed.

Lemma acs_chan_interference_factor_frame (iface : hostapd_iface)
  (c : hostapd_channel_data) :
  let c' := acs_chan_interference_factor iface c in
  chan c' = chan c /\ freq c' = freq c /\ flag c' = flag c /\
  survey_list c' = survey_list c /\ survey_count c' = survey_count c /\
  min_nf c' = min_nf c.
Proof.
  unfold acs_chan_interference_factor.
  destruct (dl_list_empty (survey_list c) || chan_disabled c); [cbn; tauto|].
  cbn. apply acif_fold_frame.
Qed.

Lemma acs_usable_chan_scored (iface : hostapd_iface) (c : hostapd_channel_data) :
  acs_usable_chan (acs_chan_interference_factor iface c) = acs_usable_chan c.
Proof.
  destruct (acs_chan_interference_factor_frame iface c)
    as (_ & _ & Hf & Hl & Hc & _).
  unfold acs_usable_chan, chan_disabled. rewrite Hf, Hl, Hc. reflexivity.
Qed.

Lemma acs_usable_chan_enabled (c : hostapd_channel_data) :
  acs_usable_chan c = true -> chan_disabled c = false.
Proof.
  unfold acs_usable_chan.
  destruct (survey_count c =? 0); [discriminate|].
  destruct (dl_list_empty (survey_list c)); [discriminate|].
  destruct (chan_disabled c); [discriminate | reflexivity].
Qed.

Lemma acs_find_ideal_loop_channels (iface : hostapd_iface)
  (rest done : list hostapd_channel_data) (ideal_chan : option nat) :
  fst (acs_find_ideal_loop iface done rest ideal_chan)
  = done ++ map (scanned iface) rest.
Proof.
  revert done ideal_chan.
  induction rest as [|c rest IH]; intros done ideal_chan;
    cbn [acs_find_ideal_loop map].
  - rewrite app_nil_r. reflexivity.
  - assert (Hs : scanned iface c
                 = if acs_usable_chan c
                   then acs_chan_interference_factor iface c else c)
      by reflexivity.
    rewrite Hs.
    destruct (acs_usable_chan c); cbn [negb];
      rewrite IH, <- app_assoc; reflexivity.
Qed.

Lemma ideal_visited_snoc (done : list hostapd_channel_data)
  (ideal_chan : option nat) (c : hostapd_channel_data) :
  ideal_visited done ideal_chan -> ideal_visited (done ++ [c]) ideal_chan.
Proof.
  destruct ideal_chan as [j|]; cbn; [|tauto].
  intros [cj [Hj Hu]]. exists cj. split; [|exact Hu].
  rewrite nth_error_app1; [exact Hj|].
  apply nth_error_Some. rewrite Hj. discriminate.
Qed.

Lemma ideal_visited_new (done : list hostapd_channel_data)
  (c : hostapd_channel_data) :
  acs_usable_chan c = true ->
  ideal_visited (done ++ [c]) (Some (length done)).
Proof.
  intros Hu. cbn. exists c. split; [|exact Hu].
  rewrite nth_error_app2 by lia. rewrite Nat.sub_diag. reflexivity.
Qed.

Lemma acs_find_ideal_loop_visited (iface : hostapd_iface)
  (rest done : list hostapd_channel_data) (ideal_chan : option nat) :
  ideal_visited done ideal_chan ->
  ideal_visited (fst (acs_find_ideal_loop iface done rest ideal_chan))
                (snd (acs_find_ideal_loop iface done rest ideal_chan)).
Proof.
  revert done ideal_chan.
  induction rest as [|c rest IH]; intros done ideal_chan Hv;
    cbn [acs_find_ideal_loop].
  - exact Hv.
  - destruct (acs_usable_chan c) eqn:Hu; cbn [negb].
    + assert (Hu' : acs_usable_chan (acs_chan_interference_factor iface c)
                    = true)
        by (rewrite acs_usable_chan_scored; exact Hu).
      apply IH.
      destruct ideal_chan as [j|];
        [|apply ideal_visited_new; exact Hu'].
      destruct (nth_error (done ++ acs_chan_interference_factor iface c :: rest) j)
        as [cj|];
        [|apply ideal_visited_snoc; exact Hv].
      destruct (ld_lt _ _);
        [apply ideal_visited_new; exact Hu'
        |apply ideal_visited_snoc; exact Hv].
    + apply IH. apply ideal_visited_snoc. exact Hv.
Qed.

Lemma acs_find_ideal_chan_usable (iface : hostapd_iface) :
  match fst (acs_find_ideal_chan iface) with
  | Some (j, c) =>
    acs_usable_chan c = true /\
    exists c0, nth_error (channels (current_mode iface)) j = Some c0 /\
               c = scanned iface c0 /\ acs_usable_chan c0 = true
  | None => True
  end.
Proof.
  unfold acs_find_ideal_chan.
  pose proof (acs_find_ideal_loop_visited iface
                (channels (current_mode iface)) [] None I) as Hv.
  pose proof (acs_find_ideal_loop_channels iface
                (channels (current_mode iface)) [] None) as Hc.
  destruct (acs_find_ideal_loop iface [] (channels (current_mode iface)) None)
    as [chs ideal_chan].
  cbn [fst snd] in *.
  destruct ideal_chan as [j|]; cbn [fst]; [|exact I].
  destruct Hv as [cj [Hj Hu]]. rewrite Hj. cbn [fst].
  split; [exact Hu|].
  rewrite Hc in Hj. cbn [app] in Hj.
  rewrite nth_error_map in Hj.
  destruct (nth_error (channels (current_mode iface)) j) as [c0|];
    [|discriminate].
  cbn in Hj. injection Hj as <-.
  exists c0. split; [reflexivity|]. split; [reflexivity|].
  unfold scanned in Hu. destruct (acs_usable_chan c0) eqn:H0; [reflexivity|].
  rewrite H0 in Hu. discriminate.
Qed.

(** C7. Whatever the channel list and the sequence of events, every
    remain-on-channel request of the controller is made for a channel that
    is not DISABLED (on that channel's frequency), and the channel
    [acs_find_ideal_chan] returns is not DISABLED. *)
Theorem disabled_never_dwelled_nor_selected
  (evs : list acs_event) (iface : hostapd_iface) :
  forallb roc_ok (trace_of evs iface) = true /\
  match fst (acs_find_ideal_chan iface) with
  | Some (j, c) =>
    chan_disabled c = false /\
    option_map chan_disabled (nth_error (channels (current_mode iface)) j)
    = Some false
  | None => True
  end.
Proof.
  split.
  - apply acs_run_roc_ok.
  - pose proof (acs_find_ideal_chan_usable iface) as H.
    destruct (fst (acs_find_ideal_chan iface)) as [[j c]|]; [|exact I].
    destruct H as [Hu [c0 [Hj [_ Hu0]]]].
    split; [apply acs_usable_chan_enabled; exact Hu|].
    rewrite Hj. cbn. f_equal. apply acs_usable_chan_enabled. exact Hu0.
Qed.

(** ** The selector returns the first channel of minimal score *)

Lemma nth_error_snoc_inv {A : Type} (l : list A) (x y : A) (k : nat) :
  nth_error (l ++ [x]) k = Some y ->
  (nth_error l k = Some y /\ (k < length l)%nat) \/ (k = length l /\ y = x).
Proof.
  intros H.
  destruct (Nat.lt_ge_cases k (length l)) as [Hlt|Hge].
  - left. rewrite nth_error_app1 in H by exact Hlt. tauto.
  - right. rewrite nth_error_app2 in H by exact Hge.
    destruct (k - length l)%nat as [|m] eqn:Hk; cbn in H.
    + injection H as <-. split; [lia | reflexivity].
    + destruct m; discriminate.
Qed.

Lemma ideal_best_skip (done : list hostapd_channel_data)
  (ideal_chan : option nat) (c : hostapd_channel_data) :
  acs_usable_chan c = false ->
  ideal_best done ideal_chan -> ideal_best (done ++ [c]) ideal_chan.
Proof.
  intros Hu Hb.
  destruct ideal_chan as [j|]; cbn in *.
  - destruct Hb as [cj (Hj & Huj & Hmin)].
    assert (Hlt : (j < length done)%nat)
      by (apply nth_error_Some; rewrite Hj; discriminate).
    exists cj. split; [rewrite nth_error_app1 by exact Hlt; exact Hj|].
    split; [exact Huj|].
    intros k ck Hk Huk.
    apply nth_error_snoc_inv in Hk. destruct Hk as [[Hk _]|[_ ->]].
    + apply Hmin; assumption.
    + rewrite Hu in Huk. discriminate.
  - intros c' Hin. apply in_app_or in Hin. destruct Hin as [Hin|[<-|[]]].
    + apply Hb. exact Hin.
    + exact Hu.
Qed.

Lemma ideal_best_first (done : list hostapd_channel_data)
  (c : hostapd_channel_data) :
  ld_lt_strict_order ->
  acs_usable_chan c = true ->
  ideal_best done None -> ideal_best (done ++ [c]) (Some (length done)).
Proof.
  intros [Hirr _] Hu Hb. cbn in *.
  exists c. split; [rewrite nth_error_app2, Nat.sub_diag by lia; reflexivity|].
  split; [exact Hu|].
  intros k ck Hk Huk.
  apply nth_error_snoc_inv in Hk. destruct Hk as [[Hk _]|[-> ->]].
  - apply nth_error_In in Hk. apply Hb in Hk. rewrite Hk in Huk. discriminate.
  - split; [apply Hirr | intros _; lia].
Qed.

Lemma ideal_best_replace (done : list hostapd_channel_data) (j : nat)
  (c cj : hostapd_channel_data) :
  ld_lt_strict_order ->
  acs_usable_chan c = true ->
  nth_error done j = Some cj ->
  ld_lt (survey_interference_factor c) (survey_interference_factor cj) = true ->
  ideal_best done (Some j) -> ideal_best (done ++ [c]) (Some (length done)).
Proof.
  intros [Hirr Htrans] Hu Hj Hlt Hb. cbn in *.
  destruct Hb as [cj' (Hj' & _ & Hmin)].
  rewrite Hj in Hj'. injection Hj' as <-.
  exists c. split; [rewrite nth_error_app2, Nat.sub_diag by lia; reflexivity|].
  split; [exact Hu|].
  intros k ck Hk Huk.
  apply nth_error_snoc_inv in Hk. destruct Hk as [[Hk Hkl]|[-> ->]].
  - destruct (Hmin k ck Hk Huk) as [Hnlt _].
    split.
    + destruct (ld_lt (survey_interference_factor ck)
                      (survey_interference_factor c)) eqn:Hck;
        [|reflexivity].
      rewrite (Htrans _ _ _ Hck Hlt) in Hnlt. discriminate.
    + intros Heq. rewrite Heq, Hlt in Hnlt. discriminate.
  - split; [apply Hirr | intros _; lia].
Qed.

Lemma ideal_best_keep (done : list hostapd_channel_data) (j : nat)
  (c cj : hostapd_channel_data) :
  nth_error done j = Some cj ->
  ld_lt (survey_interference_factor c) (survey_interference_factor cj) = false ->
  ideal_best done (Some j) -> ideal_best (done ++ [c]) (Some j).
Proof.
  intros Hj Hnlt Hb. cbn in *.
  destruct Hb as [cj' (Hj' & Huj & Hmin)].
  rewrite Hj in Hj'. injection Hj' as <-.
  assert (Hlt : (j < length done)%nat)
    by (apply nth_error_Some; rewrite Hj; discriminate).
  exists cj. split; [rewrite nth_error_app1 by exact Hlt; exact Hj|].
  split; [exact Huj|].
  intros k ck Hk Huk.
  apply nth_error_snoc_inv in Hk. destruct Hk as [[Hk _]|[-> ->]].
  - apply Hmin; assumption.
  - split; [exact Hnlt | intros _; lia].
Qed.

Lemma acs_find_ideal_loop_best (iface : hostapd_iface)
  (rest done : list hostapd_channel_data) (ideal_chan : option nat) :
  ld_lt_strict_order ->
  ideal_best done ideal_chan ->
  ideal_best (fst (acs_find_ideal_loop iface done rest ideal_chan))
             (snd (acs_find_ideal_loop iface done rest ideal_chan)).
Proof.
  intros Hord. revert done ideal_chan.
  induction rest as [|c rest IH]; intros done ideal_chan Hb;
    cbn [acs_find_ideal_loop].
  - exact Hb.
  - destruct (acs_usable_chan c) eqn:Hu; cbn [negb];
      [|apply IH, ideal_best_skip; assumption].
    assert (Hu' : acs_usable_chan (acs_chan_interference_factor iface c)
                  = true)
      by (rewrite acs_usable_chan_scored; exact Hu).
    apply IH.
    destruct ideal_chan as [j|];
      [|apply ideal_best_first; assumption].
    assert (Hj : exists cj, nth_error done j = Some cj)
      by (destruct Hb as [cj [Hj _]]; exists cj; exact Hj).
    destruct Hj as [cj Hj].
    assert (Hlt : (j < length done)%nat)
      by (apply nth_error_Some; rewrite Hj; discriminate).
    rewrite nth_error_app1, Hj by exact Hlt.
    destruct (ld_lt (survey_interference_factor
                       (acs_chan_interference_factor iface c))
                    (survey_interference_factor cj)) eqn:Hcmp.
    + eapply ideal_best_replace; eassumption.
    + eapply ideal_best_keep; eassumption.
Qed.

Lemma scanned_usable (iface : hostapd_iface) (c : hostapd_channel_data) :
  acs_usable_chan (scanned iface c) = acs_usable_chan c.
Proof.
  unfold scanned. destruct (acs_usable_chan c) eqn:Hu; [|exact Hu].
  rewrite acs_usable_chan_scored. exact Hu.
Qed.

Lemma scanned_score (iface : hostapd_iface) (c : hostapd_channel_data) :
  acs_usable_chan c = true ->
  survey_interference_factor (scanned iface c) = aggregate iface c.
Proof.
  intros Hu. unfold scanned, aggregate. rewrite Hu. reflexivity.
Qed.

(** C2. [acs_find_ideal_chan] leaves in every usable channel its aggregate
    score and returns a usable channel such that no usable channel, before
    or after it, has a strictly smaller aggregate score, and such that any
    usable channel with the same score comes after it (first seen wins);
    it returns NULL exactly when no channel is usable.  [<] on
    [long double] is assumed irreflexive and transitive. *)
Theorem acs_find_ideal_chan_argmin (iface : hostapd_iface) :
  ld_lt_strict_order ->
  channels (current_mode (snd (acs_find_ideal_chan iface)))
  = map (scanned iface) (channels (current_mode iface)) /\
  (fst (acs_find_ideal_chan iface) = None <->
   forall c, In c (channels (current_mode iface)) ->
             acs_usable_chan c = false) /\
  match fst (acs_find_ideal_chan iface) with
  | None => True
  | Some (j, cj) =>
    exists c0,
      nth_error (channels (current_mode iface)) j = Some c0 /\
      acs_usable_chan c0 = true /\
      cj = acs_chan_interference_factor iface c0 /\
      forall k ck,
        nth_error (channels (current_mode iface)) k = Some ck ->
        acs_usable_chan ck = true ->
        ld_lt (aggregate iface ck) (aggregate iface c0) = false /\
        (aggregate iface ck = aggregate iface c0 -> (j <= k)%nat)
  end.
Proof.
  intros Hord.
  pose proof (acs_find_ideal_loop_best iface
                (channels (current_mode iface)) [] None Hord) as Hb.
  pose proof (acs_find_ideal_loop_channels iface
                (channels (current_mode iface)) [] None) as Hc.
  unfold acs_find_ideal_chan.
  destruct (acs_find_ideal_loop iface [] (channels (current_mode iface)) None)
    as [chs ideal_chan].
  cbn [fst snd app] in *.
  assert (Hb' : ideal_best chs ideal_chan)
    by (apply Hb; cbn; intros c []).
  clear Hb. subst chs.
  split; [reflexivity|].
  destruct ideal_chan as [j|]; cbn [fst ideal_best] in *.
  - destruct Hb' as [cj (Hj & Huj & Hmin)].
    rewrite Hj. cbn [fst].
    rewrite nth_error_map in Hj.
    destruct (nth_error (channels (current_mode iface)) j) as [c0|] eqn:Hj0;
      [|discriminate].
    cbn in Hj. injection Hj as <-.
    rewrite scanned_usable in Huj.
    split.
    + split; [discriminate|].
      intros Hall. apply nth_error_In in Hj0. apply Hall in Hj0.
      rewrite Hj0 in Huj. discriminate.
    + exists c0. split; [reflexivity|]. split; [exact Huj|].
      split; [unfold scanned; rewrite Huj; reflexivity|].
      intros k ck Hk Huk.
      specialize (Hmin k (scanned iface ck)).
      rewrite nth_error_map, Hk, scanned_usable in Hmin.
      specialize (Hmin eq_refl Huk).
      rewrite !scanned_score in Hmin by assumption.
      exact Hmin.
  - split; [|exact I].
    split; [|reflexivity].
    intros _ c Hin.
    rewrite <- (scanned_usable iface). apply Hb'.
    apply in_map. exact Hin.
Qed.

(** ** The remain-on-channel iterator *)

Lemma acs_study_next_freq_loop_disabled (d : driver)
  (rest : list hostapd_channel_data) (i : Z) (iface : hostapd_iface) :
  forallb chan_disabled rest = true ->
  acs_study_next_freq_loop d i rest iface = (None, iface, []).
Proof.
  revert i.
  induction rest as [|c rest IH]; intros i Hall; cbn in *; [reflexivity|].
  apply andb_true_iff in Hall. destruct Hall as [Hc Hrest].
  rewrite Hc. apply IH. exact Hrest.
Qed.

Lemma acs_study_next_freq_loop_enabled (d : driver)
  (pre : list hostapd_channel_data) (c : hostapd_channel_data)
  (post : list hostapd_channel_data) (i : Z) (iface : hostapd_iface) :
  forallb chan_disabled pre = true ->
  chan_disabled c = false ->
  acs_study_next_freq_loop d i (pre ++ c :: post) iface
  = let duration := acs_roc_duration_ms (conf iface) in
    let err := hostapd_drv_remain_on_channel d (freq c) duration in
    if err <? 0 then
      (Some HOSTAPD_CHAN_INVALID, iface,
       [DrvRemainOnChannel c (freq c) duration err;
        LogError "ACS: request to go offchannel on freq %d MHz failed"])
    else
      (Some HOSTAPD_CHAN_ACS,
       set_off_channel_freq_idx (i + Z.of_nat (length pre)) iface,
       [DrvRemainOnChannel c (freq c) duration err]).
Proof.
  revert i.
  induction pre as [|c' pre IH]; intros i Hall Hc.
  - cbn [app acs_study_next_freq_loop]. rewrite Hc.
    unfold bind, get, emit, modify, ret. cbn.
    destruct (_ <? 0); cbn; [reflexivity|].
    rewrite Z.add_0_r. reflexivity.
  - cbn [forallb] in Hall.
    apply andb_true_iff in Hall. destruct Hall as [Hc' Hpre].
    cbn [app acs_study_next_freq_loop]. rewrite Hc'.
    rewrite IH by assumption. cbn zeta.
    replace (i + 1 + Z.of_nat (length pre))
      with (i + Z.of_nat (length (c' :: pre)))
      by (cbn [length]; lia).
    reflexivity.
Qed.

Lemma skipn_length_app {A : Type} (l1 l2 : list A) :
  skipn (length l1) (l1 ++ l2) = l2.
Proof. induction l1 as [|x l1 IH]; cbn; [reflexivity | exact IH]. Qed.

(** C4 (as the code has it). [acs_study_next_freq], from the cursor
    [off_channel_freq_idx]:
    - a cursor beyond the channel count gives INVALID;
    - otherwise, for the first channel at or after the cursor that is not
      DISABLED, one remain-on-channel request of [acs_roc_duration_ms] on
      that channel's frequency is made; when the driver accepts it
      ([err >= 0]) the cursor is left at that channel's index and ACS is
      returned, and when the driver refuses it ([err < 0]) INVALID is
      returned and the cursor is not moved;
    - when every channel from the cursor on is DISABLED, no request is
      made and the result is VALID if [chans_surveyed] is non-zero, INVALID
      otherwise. *)
Theorem acs_study_next_freq_spec (d : driver) (iface : hostapd_iface) :
  let chs := channels (current_mode iface) in
  let idx := off_channel_freq_idx iface in
  let duration := acs_roc_duration_ms (conf iface) in
  (num_channels (current_mode iface) < idx ->
   acs_study_next_freq d iface
   = (HOSTAPD_CHAN_INVALID, iface,
      [LogError "ACS: channel index out of bounds"])) /\
  (forall before pre c post,
     chs = before ++ pre ++ c :: post ->
     Z.of_nat (length before) = idx ->
     forallb chan_disabled pre = true ->
     chan_disabled c = false ->
     let err := hostapd_drv_remain_on_channel d (freq c) duration in
     acs_study_next_freq d iface
     = if err <? 0 then
         (HOSTAPD_CHAN_INVALID, iface,
          [DrvRemainOnChannel c (freq c) duration err;
           LogError "ACS: request to go offchannel on freq %d MHz failed"])
       else
         (HOSTAPD_CHAN_ACS,
          set_off_channel_freq_idx (idx + Z.of_nat (length pre)) iface,
          [DrvRemainOnChannel c (freq c) duration err])) /\
  (forall before rest,
     chs = before ++ rest ->
     Z.of_nat (length before) = idx ->
     forallb chan_disabled rest = true ->
     acs_study_next_freq d iface
     = if chans_surveyed iface =? 0 then
         (HOSTAPD_CHAN_INVALID, iface,
          [LogError "ACS: unable to survey any channel"])
       else (HOSTAPD_CHAN_VALID, iface, [])).
Proof.
  cbn zeta. split; [|split].
  - intros Hout. unfold acs_study_next_freq, bind, get. cbn.
    apply Z.ltb_lt in Hout. rewrite Hout. reflexivity.
  - intros before pre c post Hchs Hidx Hpre Hc.
    unfold acs_study_next_freq, bind, get. cbn.
    assert (Hin : (num_channels (current_mode iface)
                   <? off_channel_freq_idx iface) = false).
    { apply Z.ltb_ge. unfold num_channels. rewrite Hchs, length_app. lia. }
    rewrite Hin, Hchs, <- Hidx, Nat2Z.id, skipn_length_app.
    rewrite acs_study_next_freq_loop_enabled by assumption. cbn zeta.
    destruct (_ <? 0); reflexivity.
  - intros before rest Hchs Hidx Hrest.
    unfold acs_study_next_freq, bind, get. cbn.
    assert (Hin : (num_channels (current_mode iface)
                   <? off_channel_freq_idx iface) = false).
    { apply Z.ltb_ge. unfold num_channels. rewrite Hchs, length_app. lia. }
    rewrite Hin, Hchs, <- Hidx, Nat2Z.id, skipn_length_app.
    rewrite acs_study_next_freq_loop_disabled by assumption.
    destruct (chans_surveyed iface =? 0); reflexivity.
Qed.

(** ** Starting the engine *)

(** C5 (as the code has it). [acs_init] returns INVALID exactly when
    [chans_surveyed] is non-zero at entry, or the driver lacks the
    off-channel TX flag, or the initial scan request is refused; it returns
    ACS in every other case, and never VALID. *)
Theorem acs_init_status (d : driver) (iface : hostapd_iface) :
  let st := fst (fst (acs_init d iface)) in
  (chans_surveyed iface <> 0 \/
   Z.land (drv_flags iface) WPA_DRIVER_FLAGS_OFFCHANNEL_TX = 0 \/
   hostapd_driver_scan d < 0 ->
   st = HOSTAPD_CHAN_INVALID) /\
  (chans_surveyed iface = 0 ->
   Z.land (drv_flags iface) WPA_DRIVER_FLAGS_OFFCHANNEL_TX <> 0 ->
   0 <= hostapd_driver_scan d ->
   st = HOSTAPD_CHAN_ACS) /\
  st <> HOSTAPD_CHAN_VALID.
Proof.
  cbn zeta.
  unfold acs_init, acs_sanity_check, acs_init_scan, bind, get, emit, modify, ret.
  cbn.
  destruct (Z.eqb_spec (chans_surveyed iface) 0) as [Hs|Hs]; cbn;
    [|split; [reflexivity | split; [intros; contradiction | discriminate]]].
  destruct (Z.eqb_spec (Z.land (drv_flags iface) WPA_DRIVER_FLAGS_OFFCHANNEL_TX) 0)
    as [Hf|Hf]; cbn;
    [split; [reflexivity | split; [intros; contradiction | discriminate]]|].
  destruct (Z.ltb_spec (hostapd_driver_scan d) 0) as [Hd|Hd]; cbn.
  - split; [reflexivity | split; [intros; lia | discriminate]].
  - split; [|split; [reflexivity | discriminate]].
    intros [H|[H|H]]; [contradiction | contradiction | lia].
Qed.

End Proofs.

(** ** Two invocations in a row *)

Section ScenarioRuns.

Context {LD : LongDouble}.

#[local] Existing Instance hostapd_masks.

Lemma first_invocation_state :
  ld_lt score_2437_first score_2412_first = false ->
  iface_after one_invocation fresh_iface = after_first.
Proof.
  intros H. vm_compute in H. vm_compute. rewrite H. reflexivity.
Qed.

Lemma second_invocation_channel :
  ld_lt score_2437_second score_2412_second = true ->
  channel (conf (iface_after one_invocation after_first)) = 6.
Proof.
  intros H. vm_compute in H. vm_compute. rewrite H. reflexivity.
Qed.

End ScenarioRuns.

(** ** Evaluation over the extended reals *)

Section Examples.

#[local] Existing Instance xreal_long_double.
#[local] Existing Instance hostapd_masks.

Open Scope R_scope.

Lemma ln2_pos : 0 < ln 2.
Proof. pose proof ln_lt_2. lra. Qed.

Lemma log2_pow2 (n : nat) : ln (2 ^ n) / ln 2 = INR n.
Proof.
  rewrite ln_pow by lra. field. apply Rgt_not_eq, ln2_pos.
Qed.

Lemma log2_inv_pow2 (n : nat) : ln (/ 2 ^ n) / ln 2 = - INR n.
Proof.
  rewrite ln_Rinv by (apply pow_lt; lra).
  rewrite ln_pow by lra. field. apply Rgt_not_eq, ln2_pos.
Qed.

Lemma xreal_log2_pos (a : R) : 0 < a -> xreal_log2 (Fin a) = Fin (ln a / ln 2).
Proof.
  intros Ha. unfold xreal_log2.
  destruct (Req_dec_T a 0) as [E|_]; [lra|].
  destruct (Rlt_dec 0 a) as [_|N]; [reflexivity | contradiction].
Qed.

Lemma xreal_log2_zero (a : R) : a = 0 -> xreal_log2 (Fin a) = NInf.
Proof.
  intros Ha. unfold xreal_log2.
  destruct (Req_dec_T a 0) as [_|N]; [reflexivity | contradiction].
Qed.

Lemma xreal_div_fin (a b : R) : b <> 0 -> xreal_div (Fin a) (Fin b) = Fin (a / b).
Proof.
  intros Hb. unfold xreal_div.
  destruct (Req_dec_T b 0) as [E|_]; [contradiction | reflexivity].
Qed.

Lemma xreal_lt_fin (a b : R) : a < b -> xreal_lt (Fin a) (Fin b) = true.
Proof.
  intros H. unfold xreal_lt.
  destruct (Rlt_dec a b) as [_|N]; [reflexivity | contradiction].
Qed.

Lemma xreal_lt_fin_not (a b : R) : b <= a -> xreal_lt (Fin a) (Fin b) = false.
Proof.
  intros H. unfold xreal_lt.
  destruct (Rlt_dec a b) as [L|_]; [lra | reflexivity].
Qed.

Lemma xreal_lt_strict_order : @ld_lt_strict_order xreal_long_double.
Proof.
  split.
  - intros [a| | |]; cbn; try reflexivity.
    destruct (Rlt_dec a a) as [L|_]; [lra | reflexivity].
  - intros [a| | |] [b| | |] [c| | |]; cbn; try discriminate; try reflexivity.
    destruct (Rlt_dec a b) as [Lab|_]; [|discriminate].
    destruct (Rlt_dec b c) as [Lbc|_]; [|discriminate].
    destruct (Rlt_dec a c) as [_|N]; [reflexivity | lra].
Qed.

Close Scope R_scope.

(** Below 64 dB of difference the power of two does not wrap, and the code
    computes the formula of the specification. *)
Lemma acs_survey_interference_factor_exact (s : freq_survey) (m : Z) :
  survey_wf s ->
  -128 <= m <= nf s ->
  nf s - m < 64 ->
  acs_survey_interference_factor s m = spec_factor s m.
Proof.
  intros (Htx & Hb & Ht & Hnf) Hm Hd.
  unfold acs_survey_interference_factor, spec_factor, spec_factor_arg.
  cbn [ld_of_Z ld_div ld_mul ld_log2 xreal_long_double].
  assert (H1 : u64 (channel_time_busy s - channel_time_tx s)
               = channel_time_busy s - channel_time_tx s)
    by (unfold u64; apply Z.mod_small; lia).
  assert (H2 : u64 (channel_time s - channel_time_tx s)
               = channel_time s - channel_time_tx s)
    by (unfold u64; apply Z.mod_small; lia).
  assert (H3 : u64 (nf s - m) = nf s - m)
    by (unfold u64; apply Z.mod_small; lia).
  assert (H4 : base_to_power 2 (nf s - m) = 2 ^ (nf s - m)).
  { rewrite base_to_power_spec by lia. apply Z.mod_small. split; [apply Z.pow_nonneg; lia|].
    apply Z.pow_lt_mono_r; lia. }
  rewrite H1, H2, H3, H4.
  rewrite xreal_div_fin by (apply not_0_IZR; lia).
  reflexivity.
Qed.

(** C3 (the code departs from the claim). For the well-formed measurement
    [loud_survey] and the reference noise floor -94 dBm (64 dB below the
    measurement's), [base_to_power 2 64] wraps to 0: the code returns minus
    infinity, where the formula of the specification gives 63. *)
Theorem acs_survey_interference_factor_overflow :
  survey_wf loud_survey /\
  -94 <= nf loud_survey /\
  base_to_power 2 (u64 (nf loud_survey - -94)) = 0 /\
  acs_survey_interference_factor loud_survey (-94) = NInf /\
  spec_factor loud_survey (-94) = Fin 63.
Proof.
  split; [unfold survey_wf; cbn; lia|].
  split; [cbn; lia|].
  assert (Hp : base_to_power 2 (u64 (nf loud_survey - -94)) = 0)
    by (vm_compute; reflexivity).
  split; [exact Hp|].
  split.
  - unfold acs_survey_interference_factor.
    rewrite Hp.
    cbn [ld_of_Z ld_div ld_mul ld_log2 xreal_long_double].
    rewrite xreal_div_fin.
    + cbn [xreal_mul]. apply xreal_log2_zero. lra.
    + change (u64 (channel_time loud_survey - channel_time_tx loud_survey))
        with 1000.
      lra.
  - unfold spec_factor, spec_factor_arg.
    change (channel_time_busy loud_survey - channel_time_tx loud_survey)
      with 500.
    change (channel_time loud_survey - channel_time_tx loud_survey) with 1000.
    change (2 ^ (nf loud_survey - -94)) with (2 * 2 ^ 63).
    rewrite mult_IZR.
    replace (500 / 1000 * (2 * IZR (2 ^ 63)))%R with (IZR (2 ^ 63)) by lra.
    change (2 ^ 63) with (2 ^ Z.of_nat 63).
    rewrite <- pow_IZR.
    rewrite xreal_log2_pos by (apply pow_lt; lra).
    rewrite log2_pow2. f_equal.
    change 63%nat with (Z.to_nat 63). rewrite INR_IZR_INZ.
    reflexivity.
Qed.


(** ** The scenario, evaluated *)

Open Scope R_scope.

Lemma factor_2412_value : factor_2412 = Fin (-8).
Proof.
  unfold factor_2412.
  rewrite acs_survey_interference_factor_exact
    by (unfold survey_wf; cbn; lia).
  unfold spec_factor, spec_factor_arg.
  change (channel_time_busy survey_2412 - channel_time_tx survey_2412)%Z
    with 1%Z.
  change (channel_time survey_2412 - channel_time_tx survey_2412)%Z
    with 256%Z.
  change (2 ^ (nf survey_2412 - -95))%Z with 1%Z.
  replace (1 / 256 * 1) with (/ 2 ^ 8) by lra.
  rewrite xreal_log2_pos by (apply Rinv_0_lt_compat, pow_lt; lra).
  rewrite log2_inv_pow2. f_equal. cbn. lra.
Qed.

Lemma factor_2437_value : factor_2437 = Fin (-7).
Proof.
  unfold factor_2437.
  rewrite acs_survey_interference_factor_exact
    by (unfold survey_wf; cbn; lia).
  unfold spec_factor, spec_factor_arg.
  change (channel_time_busy survey_2437 - channel_time_tx survey_2437)%Z
    with 1%Z.
  change (channel_time survey_2437 - channel_time_tx survey_2437)%Z
    with 128%Z.
  change (2 ^ (nf survey_2437 - -95))%Z with 1%Z.
  replace (1 / 128 * 1) with (/ 2 ^ 7) by lra.
  rewrite xreal_log2_pos by (apply Rinv_0_lt_compat, pow_lt; lra).
  rewrite log2_inv_pow2. f_equal. cbn. lra.
Qed.

Lemma score_2412_first_value : score_2412_first = Fin (-8).
Proof.
  unfold score_2412_first. rewrite factor_2412_value.
  cbn [ld_of_Z ld_add ld_div xreal_long_double xreal_add].
  rewrite xreal_div_fin by lra. f_equal. lra.
Qed.

Lemma score_2437_first_value : score_2437_first = Fin (-7).
Proof.
  unfold score_2437_first. rewrite factor_2437_value.
  cbn [ld_of_Z ld_add ld_div xreal_long_double xreal_add].
  rewrite xreal_div_fin by lra. f_equal. lra.
Qed.

Lemma score_2412_second_value : score_2412_second = Fin (-12).
Proof.
  unfold score_2412_second.
  rewrite score_2412_first_value, factor_2412_value.
  cbn [ld_of_Z ld_add ld_div xreal_long_double xreal_add].
  rewrite xreal_div_fin by lra. f_equal. lra.
Qed.

Lemma score_2437_second_value : score_2437_second = Fin (-14).
Proof.
  unfold score_2437_second.
  rewrite score_2437_first_value, factor_2437_value.
  cbn [ld_of_Z ld_add ld_div xreal_long_double xreal_add].
  rewrite xreal_div_fin by lra. f_equal. lra.
Qed.

Close Scope R_scope.

(** C1 (the code departs from the claim). The engine is run twice in a row
    on the fresh two-channel interface, the driver reporting the same
    survey data both times: the first invocation writes channel 1 to
    [conf.channel], the second writes channel 6.  [acs_cleanup] does not
    reset [survey_interference_factor], so the second invocation adds to
    the scores the first one left. *)
Theorem acs_twice_same_data_differs :
  channel (conf (iface_after one_invocation fresh_iface)) = 1 /\
  channel (conf (iface_after one_invocation
                   (iface_after one_invocation fresh_iface))) = 6.
Proof.
  assert (H1 : ld_lt score_2437_first score_2412_first = false).
  { rewrite score_2437_first_value, score_2412_first_value.
    apply xreal_lt_fin_not. lra. }
  assert (H2 : ld_lt score_2437_second score_2412_second = true).
  { rewrite score_2437_second_value, score_2412_second_value.
    apply xreal_lt_fin. lra. }
  rewrite (first_invocation_state H1).
  split; [reflexivity|].
  apply second_invocation_channel. exact H2.
Qed.

(** ** Witnesses and departures on the scenario *)

Lemma acs_find_ideal_chan_argmin_witness :
  channels (current_mode (snd (acs_find_ideal_chan surveyed_iface)))
  = map (scanned surveyed_iface) (channels (current_mode surveyed_iface)) /\
  (fst (acs_find_ideal_chan surveyed_iface) = None <->
   forall c, In c (channels (current_mode surveyed_iface)) ->
             acs_usable_chan c = false) /\
  match fst (acs_find_ideal_chan surveyed_iface) with
  | None => True
  | Some (j, cj) =>
    exists c0,
      nth_error (channels (current_mode surveyed_iface)) j = Some c0 /\
      acs_usable_chan c0 = true /\
      cj = acs_chan_interference_factor surveyed_iface c0 /\
      forall k ck,
        nth_error (channels (current_mode surveyed_iface)) k = Some ck ->
        acs_usable_chan ck = true ->
        ld_lt (aggregate surveyed_iface ck) (aggregate surveyed_iface c0)
        = false /\
        (aggregate surveyed_iface ck = aggregate surveyed_iface c0 ->
         (j <= k)%nat)
  end.
Proof.
  apply (acs_find_ideal_chan_argmin surveyed_iface xreal_lt_strict_order).
Defined.

Lemma acs_terminal_state_clean_witness :
  (acs_terminal (snd (acs_handle (EvRoc 2437 100 1) surveyed_iface)) /\
   acs_clean (snd (fst (acs_handle (EvRoc 2437 100 1) surveyed_iface))) /\
   acs_cleanup (snd (fst (acs_handle (EvRoc 2437 100 1) surveyed_iface)))
   = snd (fst (acs_handle (EvRoc 2437 100 1) surveyed_iface))) /\
  (existsb (fun e => match e with AcsCompleted 0 => true | _ => false end)
      (snd (acs_handle
              (EvRocCancel (reporting_driver reported_surveys) 2412 100 0)
              single_iface)) = true /\
   acs_clean
     (snd (fst (acs_handle
                  (EvRocCancel (reporting_driver reported_surveys) 2412 100 0)
                  single_iface)))).
Proof.
  split.
  - split; [reflexivity|].
    apply (acs_terminal_state_clean (EvRoc 2437 100 1) surveyed_iface).
    reflexivity.
  - split; [reflexivity|].
    apply (proj1 (acs_terminal_state_clean
                    (EvRocCancel (reporting_driver reported_surveys) 2412 100 0)
                    single_iface eq_refl)).
Defined.

(** C4, where the claim fails: the cursor is within the channel list and
    the channel under it is enabled, but the driver refuses the request;
    [acs_study_next_freq] returns INVALID, not ACS. *)
Lemma acs_study_next_freq_refused :
  off_channel_freq_idx fresh_iface <= num_channels (current_mode fresh_iface) /\
  option_map chan_disabled (nth_error (channels (current_mode fresh_iface)) 0)
  = Some false /\
  hostapd_drv_remain_on_channel refusing_driver 2412 100 = -1 /\
  fst (fst (acs_study_next_freq refusing_driver fresh_iface))
  = HOSTAPD_CHAN_INVALID.
Proof.
  split; [cbn; lia|]. split; [reflexivity|]. split; reflexivity.
Qed.

Lemma acs_study_next_freq_spec_witness :
  acs_study_next_freq (reporting_driver reported_surveys)
    (set_off_channel_freq_idx 1 fresh_iface)
  = (HOSTAPD_CHAN_ACS, set_off_channel_freq_idx 1 fresh_iface,
     [DrvRemainOnChannel (fresh_chan 6 2437) 2437 100 0]) /\
  acs_study_next_freq refusing_driver fresh_iface
  = (HOSTAPD_CHAN_INVALID, fresh_iface,
     [DrvRemainOnChannel (fresh_chan 1 2412) 2412 100 (-1);
      LogError "ACS: request to go offchannel on freq %d MHz failed"]) /\
  acs_study_next_freq refusing_driver
    (set_off_channel_freq_idx 2 fresh_iface)
  = (HOSTAPD_CHAN_INVALID, set_off_channel_freq_idx 2 fresh_iface,
     [LogError "ACS: unable to survey any channel"]).
Proof.
  split; [|split].
  - exact (proj1 (proj2 (acs_study_next_freq_spec
                           (reporting_driver reported_surveys)
                           (set_off_channel_freq_idx 1 fresh_iface)))
                 [fresh_chan 1 2412] [] (fresh_chan 6 2437) []
                 eq_refl eq_refl eq_refl eq_refl).
  - exact (proj1 (proj2 (acs_study_next_freq_spec refusing_driver fresh_iface))
                 [] [] (fresh_chan 1 2412) [fresh_chan 6 2437]
                 eq_refl eq_refl eq_refl eq_refl).
  - exact (proj2 (proj2 (acs_study_next_freq_spec refusing_driver
                           (set_off_channel_freq_idx 2 fresh_iface)))
                 [fresh_chan 1 2412; fresh_chan 6 2437] []
                 eq_refl eq_refl eq_refl).
Defined.

(** C5, where the claim fails: the driver has the off-channel TX flag and
    accepts the scan, yet [acs_init] returns INVALID because
    [chans_surveyed] is non-zero at entry. *)
Lemma acs_init_stale_invalid :
  Z.land (drv_flags stale_iface) WPA_DRIVER_FLAGS_OFFCHANNEL_TX = 32768 /\
  hostapd_driver_scan (reporting_driver reported_surveys) = 0 /\
  fst (fst (acs_init (reporting_driver reported_surveys) stale_iface))
  = HOSTAPD_CHAN_INVALID.
Proof.
  split; [reflexivity|]. split; reflexivity.
Qed.

Lemma acs_init_status_witness :
  fst (fst (acs_init (reporting_driver reported_surveys) fresh_iface))
  = HOSTAPD_CHAN_ACS /\
  fst (fst (acs_init (reporting_driver reported_surveys) stale_iface))
  = HOSTAPD_CHAN_INVALID.
Proof.
  split.
  - apply (proj1 (proj2 (acs_init_status (reporting_driver reported_surveys)
                           fresh_iface))).
    + reflexivity.
    + cbn. lia.
    + cbn. lia.
  - apply (proj1 (acs_init_status (reporting_driver reported_surveys)
                    stale_iface)).
    left. cbn. lia.
Defined.

End Examples.

(** * Further properties of the engine *)

(** ** The power of two of the noise term *)

Lemma pow2_mod_wraps (p : Z) : 64 <= p -> 2 ^ p mod 2 ^ 64 = 0.
Proof.
  intros Hp.
  replace p with ((p - 64) + 64) by lia.
  rewrite Z.pow_add_r by lia.
  apply Z.mod_mul. lia.
Qed.

(** X1. For two signed 8-bit noise floors, the multiplier the scoring
    function obtains from [base_to_power] is [2 ^ (nf - min_nf)] when the
    difference is between 0 and 63, and 0 in every other case (a
    difference of 64 or more, or a negative one, which the call turns
    into a huge unsigned exponent). *)
Theorem noise_multiplier (noise reference : Z) :
  -128 <= noise <= 127 ->
  -128 <= reference <= 127 ->
  base_to_power 2 (u64 (noise - reference))
  = if (0 <=? noise - reference) && (noise - reference <? 64)
    then 2 ^ (noise - reference) else 0.
Proof.
  intros Hn Hr.
  assert (Hu : 0 <= u64 (noise - reference) < 2 ^ 64)
    by (unfold u64; apply Z.mod_pos_bound; lia).
  rewrite base_to_power_spec by (try exact Hu; lia).
  destruct (Z.leb_spec 0 (noise - reference)) as [H0|H0]; cbn [andb].
  - assert (E : u64 (noise - reference) = noise - reference)
      by (unfold u64; apply Z.mod_small; lia).
    rewrite E.
    destruct (Z.ltb_spec (noise - reference) 64) as [H1|H1].
    + apply Z.mod_small. split; [apply Z.pow_nonneg; lia|].
      apply Z.pow_lt_mono_r; lia.
    + apply pow2_mod_wraps. exact H1.
  - apply pow2_mod_wraps.
    assert (E : u64 (noise - reference) = noise - reference + 2 ^ 64).
    { unfold u64. symmetry.
      apply (Z.mod_unique _ _ (-1)); lia. }
    rewrite E. lia.
Qed.

Lemma noise_multiplier_witness :
  base_to_power 2 (u64 (-90 - -95)) = 32 /\
  base_to_power 2 (u64 (-95 - -90)) = 0.
Proof.
  split.
  - apply (noise_multiplier (-90) (-95)); lia.
  - apply (noise_multiplier (-95) (-90)); lia.
Defined.

Section Coverage.

Context {LD : LongDouble} {K : AcsConstants}.

(** ** Freeing the surveys of a channel *)

Lemma acs_clean_fold_list (l : list freq_survey) (c : hostapd_channel_data) :
  survey_list
    (fold_left (fun c' (_ : freq_survey) =>
                  set_survey_list (tl (survey_list c')) c') l c)
  = skipn (length l) (survey_list c).
Proof.
  revert c.
  induction l as [|s l IH]; intros c; cbn [fold_left length skipn];
    [reflexivity|].
  rewrite IH. cbn [set_survey_list survey_list].
  destruct (survey_list c) as [|x rest]; cbn [tl];
    [apply skipn_nil | reflexivity].
Qed.

(** X2. [acs_clean_chan_surveys] leaves the channel with an empty survey
    list, whatever the list held, and changes no other field (not the
    survey count, which [acs_cleanup] resets afterwards). *)
Theorem acs_clean_chan_surveys_empties (c : hostapd_channel_data) :
  acs_clean_chan_surveys c = set_survey_list [] c.
Proof.
  pose proof (acs_clean_chan_surveys_frame c) as (Hc & Hf & Hg & Hn & Hm & Hs).
  assert (Hl : survey_list (acs_clean_chan_surveys c) = []).
  { unfold acs_clean_chan_surveys.
    destruct (survey_list c) as [|s l] eqn:E; cbn [dl_list_empty];
      [exact E|].
    rewrite acs_clean_fold_list, E. apply skipn_all. }
  destruct (acs_clean_chan_surveys c) as [a b f l n m x].
  unfold set_survey_list. cbn in *. subst. reflexivity.
Qed.

(** ** The score of a channel *)

Lemma acif_fold_score (iface : hostapd_iface) (l : list freq_survey)
  (c : hostapd_channel_data) :
  survey_interference_factor
    (fold_left
       (fun c' survey =>
          set_survey_interference_factor
            (ld_add (survey_interference_factor c')
                    (acs_survey_interference_factor survey (lowest_nf iface)))
            c') l c)
  = fold_left ld_add
      (map (fun survey =>
              acs_survey_interference_factor survey (lowest_nf iface)) l)
      (survey_interference_factor c).
Proof.
  revert c.
  induction l as [|s l IH]; intros c; cbn [fold_left map]; [reflexivity|].
  rewrite IH. reflexivity.
Qed.

(** X3. [acs_chan_interference_factor] returns a channel with no survey,
    or a DISABLED one, as it is; for any other channel it changes only
    [survey_interference_factor], to the sum of what the field held and
    the factors of the channel's surveys (against [lowest_nf]), divided by
    [survey_count]. *)
Theorem acs_chan_interference_factor_average (iface : hostapd_iface)
  (c : hostapd_channel_data) :
  acs_chan_interference_factor iface c
  = if dl_list_empty (survey_list c) || chan_disabled c then c
    else set_survey_interference_factor
           (ld_div (accumulated iface c) (ld_of_Z (survey_count c))) c.
Proof.
  unfold acs_chan_interference_factor, accumulated.
  destruct (dl_list_empty (survey_list c) || chan_disabled c); [reflexivity|].
  pose proof (acif_fold_frame iface (survey_list c) c) as H.
  pose proof (acif_fold_score iface (survey_list c) c) as Hs.
  cbn zeta in H.
  destruct (fold_left _ (survey_list c) c) as [a b f l n m x].
  unfold set_survey_interference_factor.
  cbn in *. destruct H as (-> & -> & -> & -> & -> & ->).
  rewrite Hs. reflexivity.
Qed.

(** ** Reasoning about handlers *)

Lemma ensures_ret {A : Type} (a : A) (iface : hostapd_iface)
  (Q : A -> hostapd_iface -> list acs_effect -> Prop) :
  Q a iface [] -> ensures (ret a) iface Q.
Proof. intros H. exact H. Qed.

Lemma ensures_get (iface : hostapd_iface)
  (Q : hostapd_iface -> hostapd_iface -> list acs_effect -> Prop) :
  Q iface iface [] -> ensures get iface Q.
Proof. intros H. exact H. Qed.

Lemma ensures_modify (f : hostapd_iface -> hostapd_iface)
  (iface : hostapd_iface)
  (Q : unit -> hostapd_iface -> list acs_effect -> Prop) :
  Q tt (f iface) [] -> ensures (modify f) iface Q.
Proof. intros H. exact H. Qed.

Lemma ensures_emit (e : acs_effect) (iface : hostapd_iface)
  (Q : unit -> hostapd_iface -> list acs_effect -> Prop) :
  Q tt iface [e] -> ensures (emit e) iface Q.
Proof. intros H. exact H. Qed.

Lemma ensures_bind {A B : Type} (m : ACS A) (k : A -> ACS B)
  (iface : hostapd_iface)
  (Q : B -> hostapd_iface -> list acs_effect -> Prop) :
  ensures m iface
    (fun a iface1 t1 =>
       ensures (k a) iface1 (fun b iface2 t2 => Q b iface2 (t1 ++ t2))) ->
  ensures (bind m k) iface Q.
Proof.
  unfold ensures, bind.
  destruct (m iface) as [[a iface1] t1]. cbn [fst snd].
  destruct (k a iface1) as [[b iface2] t2]. cbn [fst snd].
  intros H. exact H.
Qed.

Lemma ensures_mono {A : Type} (m : ACS A) (iface : hostapd_iface)
  (Q Q' : A -> hostapd_iface -> list acs_effect -> Prop) :
  ensures m iface Q ->
  (forall a iface' t, Q a iface' t -> Q' a iface' t) ->
  ensures m iface Q'.
Proof. unfold ensures. intros H HQ. apply HQ, H. Qed.

Lemma ensures_cleans {A : Type} (m : ACS A) (iface : hostapd_iface) :
  cleans m ->
  ensures m iface (fun _ iface' _ => exists x, iface' = acs_cleanup x).
Proof. intros H. apply H. Qed.

(** One step of a handler: the monad's operations by their rules, a
    conditional or a match by cases. *)
Ltac ensures_step :=
  first
    [ apply ensures_bind
    | apply ensures_ret
    | apply ensures_get
    | apply ensures_modify
    | apply ensures_emit
    | match goal with
      | |- ensures (if ?b then _ else _) _ _ => destruct b eqn:?
      | |- ensures (match ?x with _ => _ end) _ _ => destruct x eqn:?
      end ].

(** ** The outcomes of [acs_study_next_freq] *)

Lemma first_enabled_split (l : list hostapd_channel_data) :
  forallb chan_disabled l = true \/
  exists pre c post,
    l = pre ++ c :: post /\ forallb chan_disabled pre = true /\
    chan_disabled c = false.
Proof.
  induction l as [|c l IH]; [left; reflexivity|].
  destruct (chan_disabled c) eqn:Hc.
  - destruct IH as [IH|(pre & c' & post & -> & Hpre & Hc')].
    + left. cbn. rewrite Hc, IH. reflexivity.
    + right. exists (c :: pre), c', post.
      split; [reflexivity|]. split; [cbn; rewrite Hc, Hpre; reflexivity|].
      exact Hc'.
  - right. exists [], c, l. repeat split. exact Hc.
Qed.

Lemma forallb_nth_error {A : Type} (P : A -> bool) (l : list A) (m : nat)
  (x : A) :
  forallb P l = true -> nth_error l m = Some x -> P x = true.
Proof.
  intros Hall Hm. apply nth_error_In in Hm.
  rewrite forallb_forall in Hall. apply Hall. exact Hm.
Qed.

(** The three ways [acs_study_next_freq] can go, by what is left of the
    channel array from the cursor on. *)
Lemma acs_study_next_freq_cases (d : driver) (iface : hostapd_iface) :
  let rest := skipn (Z.to_nat (off_channel_freq_idx iface))
                    (channels (current_mode iface)) in
  let duration := acs_roc_duration_ms (conf iface) in
  (num_channels (current_mode iface) < off_channel_freq_idx iface /\
   acs_study_next_freq d iface
   = (HOSTAPD_CHAN_INVALID, iface,
      [LogError "ACS: channel index out of bounds"])) \/
  (off_channel_freq_idx iface <= num_channels (current_mode iface) /\
   forallb chan_disabled rest = true /\
   acs_study_next_freq d iface
   = if chans_surveyed iface =? 0 then
       (HOSTAPD_CHAN_INVALID, iface,
        [LogError "ACS: unable to survey any channel"])
     else (HOSTAPD_CHAN_VALID, iface, [])) \/
  (off_channel_freq_idx iface <= num_channels (current_mode iface) /\
   exists pre c post,
     rest = pre ++ c :: post /\ forallb chan_disabled pre = true /\
     chan_disabled c = false /\
     acs_study_next_freq d iface
     = if hostapd_drv_remain_on_channel d (freq c) duration <? 0 then
         (HOSTAPD_CHAN_INVALID, iface,
          [DrvRemainOnChannel c (freq c) duration
             (hostapd_drv_remain_on_channel d (freq c) duration);
           LogError "ACS: request to go offchannel on freq %d MHz failed"])
       else
         (HOSTAPD_CHAN_ACS,
          set_off_channel_freq_idx
            (off_channel_freq_idx iface + Z.of_nat (length pre)) iface,
          [DrvRemainOnChannel c (freq c) duration
             (hostapd_drv_remain_on_channel d (freq c) duration)])).
Proof.
  cbn zeta.
  unfold acs_study_next_freq, bind, get. cbn [fst snd].
  destruct (Z.ltb_spec (num_channels (current_mode iface))
                       (off_channel_freq_idx iface)) as [Hout|Hin].
  - left. split; [exact Hout | reflexivity].
  - right.
    destruct (first_enabled_split
                (skipn (Z.to_nat (off_channel_freq_idx iface))
                       (channels (current_mode iface))))
      as [Hall|(pre & c & post & E & Hpre & Hc)].
    + left. split; [exact Hin|]. split; [exact Hall|].
      rewrite acs_study_next_freq_loop_disabled by exact Hall.
      destruct (chans_surveyed iface =? 0); reflexivity.
    + right. split; [exact Hin|].
      exists pre, c, post. split; [exact E|]. split; [exact Hpre|].
      split; [exact Hc|].
      rewrite E, acs_study_next_freq_loop_enabled by assumption.
      cbn zeta. destruct (_ <? 0); reflexivity.
Qed.

Lemma skipn_split_index (chs pre post : list hostapd_channel_data)
  (c : hostapd_channel_data) (idx : Z) :
  0 <= idx ->
  skipn (Z.to_nat idx) chs = pre ++ c :: post ->
  idx + Z.of_nat (length pre) < Z.of_nat (length chs) /\
  nth_error chs (Z.to_nat (idx + Z.of_nat (length pre))) = Some c /\
  forall k ck,
    idx <= k < idx + Z.of_nat (length pre) ->
    nth_error chs (Z.to_nat k) = Some ck ->
    nth_error pre (Z.to_nat k - Z.to_nat idx) = Some ck.
Proof.
  intros Hidx E.
  assert (Hlen : (length chs - Z.to_nat idx
                  = length pre + S (length post))%nat).
  { rewrite <- length_skipn, E, length_app. reflexivity. }
  split; [lia|]. split.
  - replace (Z.to_nat (idx + Z.of_nat (length pre)))
      with (Z.to_nat idx + length pre)%nat by lia.
    rewrite <- nth_error_skipn, E, nth_error_app2, Nat.sub_diag by lia.
    reflexivity.
  - intros k ck Hk Hnth.
    replace (Z.to_nat k)
      with (Z.to_nat idx + (Z.to_nat k - Z.to_nat idx))%nat in Hnth by lia.
    rewrite <- nth_error_skipn, E, nth_error_app1 in Hnth by lia.
    exact Hnth.
Qed.

Lemma skipn_all_index (chs : list hostapd_channel_data) (idx : Z) :
  0 <= idx ->
  forallb chan_disabled (skipn (Z.to_nat idx) chs) = true ->
  forall k ck,
    idx <= k -> nth_error chs (Z.to_nat k) = Some ck ->
    chan_disabled ck = true.
Proof.
  intros Hidx Hall k ck Hk Hnth.
  replace (Z.to_nat k)
    with (Z.to_nat idx + (Z.to_nat k - Z.to_nat idx))%nat in Hnth by lia.
  rewrite <- nth_error_skipn in Hnth.
  exact (forallb_nth_error _ _ _ _ Hall Hnth).
Qed.

(** X4. What the result of [acs_study_next_freq] tells, for a cursor that
    is not negative.  ACS: exactly one request was made and accepted, for
    an enabled channel at or after the old cursor and inside the array,
    every channel in between is DISABLED, and only the cursor changed, to
    that channel's index.  VALID: no request was made, nothing changed,
    [chans_surveyed] is non-zero and every channel from the cursor on is
    DISABLED.  INVALID: nothing changed and no request was accepted. *)
Theorem acs_study_next_freq_outcome (d : driver) (iface : hostapd_iface) :
  0 <= off_channel_freq_idx iface ->
  let chs := channels (current_mode iface) in
  let idx := off_channel_freq_idx iface in
  let duration := acs_roc_duration_ms (conf iface) in
  let r := acs_study_next_freq d iface in
  match fst (fst r) with
  | HOSTAPD_CHAN_ACS =>
    exists j c,
      idx <= j < num_channels (current_mode iface) /\
      nth_error chs (Z.to_nat j) = Some c /\
      chan_disabled c = false /\
      0 <= hostapd_drv_remain_on_channel d (freq c) duration /\
      snd (fst r) = set_off_channel_freq_idx j iface /\
      snd r = [DrvRemainOnChannel c (freq c) duration
                 (hostapd_drv_remain_on_channel d (freq c) duration)] /\
      forall k ck,
        idx <= k < j -> nth_error chs (Z.to_nat k) = Some ck ->
        chan_disabled ck = true
  | HOSTAPD_CHAN_VALID =>
    snd (fst r) = iface /\ snd r = [] /\
    idx <= num_channels (current_mode iface) /\
    chans_surveyed iface <> 0 /\
    forall k ck,
      idx <= k -> nth_error chs (Z.to_nat k) = Some ck ->
      chan_disabled ck = true
  | HOSTAPD_CHAN_INVALID =>
    snd (fst r) = iface /\ existsb accepted_roc (snd r) = false
  end.
Proof.
  intros Hidx. cbn zeta.
  destruct (acs_study_next_freq_cases d iface)
    as [[Hout E]|[(Hin & Hall & E)|(Hin & pre & c & post & Hs & Hpre & Hc & E)]];
    rewrite E; clear E.
  - cbn. split; reflexivity.
  - destruct (Z.eqb_spec (chans_surveyed iface) 0) as [Hz|Hz]; cbn [fst snd].
    + split; reflexivity.
    + split; [reflexivity|]. split; [reflexivity|]. split; [exact Hin|].
      split; [exact Hz|].
      apply skipn_all_index; assumption.
  - destruct (skipn_split_index _ _ _ _ _ Hidx Hs) as (Hlt & Hnth & Hbefore).
    destruct (Z.ltb_spec (hostapd_drv_remain_on_channel d (freq c)
                            (acs_roc_duration_ms (conf iface))) 0)
      as [Herr|Herr]; cbn [fst snd].
    + split; [reflexivity|].
      cbn. apply orb_false_iff. split; [|reflexivity].
      apply Z.leb_gt. exact Herr.
    + exists (off_channel_freq_idx iface + Z.of_nat (length pre)), c.
      split; [unfold num_channels; lia|].
      split; [exact Hnth|]. split; [exact Hc|]. split; [exact Herr|].
      split; [reflexivity|]. split; [reflexivity|].
      intros k ck Hk Hck.
      exact (forallb_nth_error _ _ _ _ Hpre (Hbefore k ck Hk Hck)).
Qed.

(** ** Building blocks *)

Lemma acs_study_next_freq_post (d : driver) (iface : hostapd_iface) :
  0 <= off_channel_freq_idx iface ->
  ensures (acs_study_next_freq d) iface (study_next_post iface).
Proof.
  intros Hidx. unfold ensures.
  destruct (acs_study_next_freq_cases d iface)
    as [[Hout E]|[(Hin & Hall & E)|(Hin & pre & c & post & Hs & Hpre & Hc & E)]];
    rewrite E; clear E.
  - cbn. repeat split. lia.
  - destruct (Z.eqb_spec (chans_surveyed iface) 0) as [Hz|Hz]; cbn.
    + repeat split. lia.
    + repeat split. exact Hz.
  - destruct (skipn_split_index _ _ _ _ _ Hidx Hs) as (Hlt & _ & _).
    destruct (Z.ltb_spec (hostapd_drv_remain_on_channel d (freq c)
                            (acs_roc_duration_ms (conf iface))) 0)
      as [Herr|Herr]; cbn.
    + split; [reflexivity|]. split; [lia|].
      split; [|split; reflexivity].
      apply orb_false_iff. split; [apply Z.leb_gt; exact Herr | reflexivity].
    + split.
      * exists (off_channel_freq_idx iface + Z.of_nat (length pre)).
        split; [unfold num_channels; lia | reflexivity].
      * split; [reflexivity|]. split; [|split; reflexivity].
        apply orb_true_iff. left. apply Z.leb_le. exact Herr.
Qed.

Lemma acs_cleanup_conf (iface : hostapd_iface) :
  conf (acs_cleanup iface) = conf iface.
Proof. reflexivity. Qed.

Lemma acs_cleanup_num_channels (iface : hostapd_iface) :
  num_channels (current_mode (acs_cleanup iface))
  = num_channels (current_mode iface).
Proof. unfold num_channels, acs_cleanup. cbn. rewrite length_map. reflexivity. Qed.

Lemma acs_clean_cursor (iface : hostapd_iface) :
  acs_clean iface -> cursor_in_range iface.
Proof.
  intros (_ & _ & Hidx & _). unfold cursor_in_range, num_channels.
  rewrite Hidx. lia.
Qed.

Lemma acs_fail_post (iface : hostapd_iface) :
  ensures acs_fail iface
    (fun _ iface' t =>
       iface' = acs_cleanup iface /\ t = [LogError "ACS: failed to start"]).
Proof. split; reflexivity. Qed.

Lemma acs_find_ideal_chan_state (iface : hostapd_iface) :
  snd (acs_find_ideal_chan iface)
  = set_channels (map (scanned iface) (channels (current_mode iface))) iface.
Proof.
  unfold acs_find_ideal_chan.
  pose proof (acs_find_ideal_loop_channels iface
                (channels (current_mode iface)) [] None) as Hc.
  destruct (acs_find_ideal_loop iface [] (channels (current_mode iface)) None)
    as [chs ideal_chan].
  cbn in *. rewrite Hc. reflexivity.
Qed.

Lemma scanned_chan (iface : hostapd_iface) (c : hostapd_channel_data) :
  chan (scanned iface c) = chan c.
Proof.
  unfold scanned. destruct (acs_usable_chan c); [|reflexivity].
  apply (acs_chan_interference_factor_frame iface c).
Qed.

Lemma acs_study_decide_post (d : driver) (iface : hostapd_iface) :
  ensures (acs_study_decide d) iface (fun _ iface' t => decided iface iface' t).
Proof.
  unfold acs_study_decide.
  apply ensures_bind, ensures_get.
  destruct (Z.eqb_spec (chans_surveyed iface) 0) as [Hz|Hz].
  - unfold decided. cbn. repeat split; try apply acs_cleanup_clean.
    left. split; reflexivity.
  - pose proof (acs_find_ideal_chan_usable iface) as Hu.
    pose proof (acs_find_ideal_chan_state iface) as Hs.
    destruct (acs_find_ideal_chan iface) as [ideal_chan iface1].
    cbn [fst snd] in Hu, Hs. subst iface1.
    destruct ideal_chan as [[j c]|].
    + destruct Hu as (_ & c0 & Hj & -> & Hu0).
      unfold ensures, bind, modify, get, emit, ret, acs_fail. cbn [fst snd].
      destruct (Z.eqb_spec
                  (hostapd_acs_completed d
                     (set_conf_channel (chan (scanned iface c0))
                        (set_channels
                           (map (scanned iface)
                                (channels (current_mode iface))) iface))) 0)
        as [Hv|Hv]; cbn [fst snd app].
      * unfold decided. split; [unfold acs_terminal; cbn; rewrite Hv; reflexivity|].
        split; [reflexivity|]. split; [apply acs_cleanup_clean|].
        right. split; [reflexivity|]. split; [exact Hz|].
        exists j, c0. split; [exact Hj|]. split; [exact Hu0|].
        cbn. rewrite scanned_chan. reflexivity.
      * unfold decided.
        split; [unfold acs_terminal; cbn; apply orb_true_r|].
        split; [reflexivity|]. split; [apply acs_cleanup_clean|].
        right. split; [reflexivity|]. split; [exact Hz|].
        exists j, c0. split; [exact Hj|]. split; [exact Hu0|].
        cbn. rewrite scanned_chan. reflexivity.
    + unfold decided. cbn. repeat split; try apply acs_cleanup_clean.
      left. split; reflexivity.
Qed.

Lemma roc_count_app (t1 t2 : list acs_effect) :
  roc_count (t1 ++ t2) = (roc_count t1 + roc_count t2)%nat.
Proof. unfold roc_count. rewrite filter_app, length_app. reflexivity. Qed.

Lemma roc_count_zero_accepted (t : list acs_effect) :
  roc_count t = 0%nat -> existsb accepted_roc t = false.
Proof.
  induction t as [|e t IH]; [reflexivity|].
  unfold roc_count. cbn [filter existsb].
  destruct e; cbn [is_roc accepted_roc orb]; try exact IH.
  cbn. discriminate.
Qed.

Lemma acs_cleanup_reset (iface : hostapd_iface) (idx passes : Z) :
  acs_cleanup (set_off_channel_freq_idx idx
                 (set_acs_num_completed_surveys passes iface))
  = acs_cleanup iface.
Proof. reflexivity. Qed.

Lemma acs_study_complete_post (d : driver) (iface : hostapd_iface) :
  ensures (acs_study_complete d) iface
    (fun _ iface' t => study_complete_post iface iface' t).
Proof.
  unfold acs_study_complete, study_complete_post. cbn zeta.
  apply ensures_bind, ensures_modify.
  apply ensures_bind, ensures_get.
  cbn [acs_num_completed_surveys set_acs_num_completed_surveys conf].
  destruct (u32 (acs_num_completed_surveys iface + 1)
            <? acs_num_req_surveys (conf iface)).
  - apply ensures_bind, ensures_modify.
    apply ensures_bind.
    eapply ensures_mono;
      [apply acs_study_next_freq_post; cbn; lia|].
    intros st iface' t Hpost.
    destruct st; cbn [study_next_post] in Hpost.
    + destruct Hpost as (-> & -> & _).
      unfold ensures, bind, emit, acs_fail, modify. cbn.
      right. repeat split. lia.
    + destruct Hpost as (-> & Hc & Ha & Ht & Hb).
      unfold ensures, acs_fail, bind, emit, modify. cbn [fst snd].
      right. rewrite !app_nil_l, !roc_count_app.
      unfold acs_terminal. rewrite !existsb_app, Ha, Ht, Hb.
      split; [cbn; lia|]. repeat split.
    + destruct Hpost as ((j & Hj & ->) & Hc & Ha & Ht & Hb).
      unfold ensures, ret. cbn [fst snd].
      left. rewrite !app_nil_l, !app_nil_r.
      split; [exact Hc|]. split; [exact Ha|]. split; [exact Ht|].
      exists j. split; [|reflexivity].
      cbn in Hj. unfold num_channels in *. cbn in Hj. lia.
  - cbn [app].
    exact (acs_study_decide_post d
             (set_acs_num_completed_surveys
                (u32 (acs_num_completed_surveys iface + 1)) iface)).
Qed.

Lemma dwell_or_done_prefix (pre : list acs_effect) (iface' : hostapd_iface)
  (t : list acs_effect) :
  roc_count pre = 0%nat ->
  existsb is_terminal_effect pre = false ->
  dwell_or_done iface' t -> dwell_or_done iface' (pre ++ t).
Proof.
  intros Hc Ht H.
  pose proof (roc_count_zero_accepted pre Hc) as Ha.
  unfold dwell_or_done, acs_terminal in *.
  rewrite roc_count_app, !existsb_app, Hc, Ha, Ht. cbn [Nat.add orb].
  exact H.
Qed.

Lemma decided_dwell_or_done (iface iface' : hostapd_iface)
  (t : list acs_effect) :
  decided iface iface' t -> dwell_or_done iface' t.
Proof.
  intros (Ht & Hc & Hclean & _). right.
  split; [lia|]. split; [apply roc_count_zero_accepted; exact Hc|].
  split; assumption.
Qed.

Lemma study_complete_dwell_or_done (iface iface' : hostapd_iface)
  (t : list acs_effect) :
  study_complete_post iface iface' t -> dwell_or_done iface' t.
Proof.
  unfold study_complete_post. cbn zeta.
  destruct (_ <? _); [|apply decided_dwell_or_done].
  intros [(Hc & Ha & Ht & j & Hj & ->)|(Hc & Ha & Ht & _ & ->)].
  - left. split; [exact Hc|]. split; [exact Ha|]. split; [exact Ht|].
    unfold cursor_in_range, num_channels in *. cbn. lia.
  - right. split; [exact Hc|]. split; [exact Ha|]. split; [exact Ht|].
    apply acs_cleanup_clean.
Qed.

Lemma acs_roc_next_dwell_or_done (d : driver) (f duration : Z)
  (iface : hostapd_iface) :
  ensures (acs_roc_next d f duration) iface
    (fun _ iface' t => dwell_or_done iface' t).
Proof.
  unfold acs_roc_next.
  apply ensures_bind, ensures_get.
  destruct (hostapd_drv_survey_freq d iface f) as [err iface1].
  apply ensures_bind, ensures_modify.
  apply ensures_bind, ensures_emit.
  destruct (err =? 0); cbn [negb].
  - apply ensures_bind, ensures_modify.
    apply ensures_bind.
    eapply ensures_mono.
    { apply acs_study_next_freq_post. cbn.
      unfold u32. apply Z.mod_pos_bound. lia. }
    intros st iface' t Hpost.
    destruct st; cbn [study_next_post] in Hpost.
    + destruct Hpost as (-> & -> & _).
      eapply ensures_mono; [apply acs_study_complete_post|].
      intros u iface' t Hpost. cbn beta.
      apply study_complete_dwell_or_done in Hpost.
      cbn [app]. apply (dwell_or_done_prefix [DrvSurveyFreq f err]);
        [reflexivity | reflexivity | exact Hpost].
    + destruct Hpost as (-> & Hc & Ha & Ht & _).
      unfold ensures, acs_fail, bind, emit, modify. cbn [fst snd app].
      right. unfold acs_terminal.
      change (DrvSurveyFreq f err :: t ++ [LogError "ACS: failed to start"])
        with ([DrvSurveyFreq f err] ++ t ++ [LogError "ACS: failed to start"]).
      rewrite !roc_count_app, !existsb_app, Ha, Ht.
      split; [cbn; lia|]. split; [reflexivity|]. split; [reflexivity|].
      apply acs_cleanup_clean.
    + destruct Hpost as ((j & Hj & ->) & Hc & Ha & Ht & _).
      unfold ensures, ret. cbn [fst snd app].
      rewrite app_nil_r.
      apply (dwell_or_done_prefix [DrvSurveyFreq f err]);
        [reflexivity | reflexivity |].
      left. split; [exact Hc|]. split; [exact Ha|]. split; [exact Ht|].
      assert (0 <= u32 (off_channel_freq_idx iface1 + 1))
        by (unfold u32; apply Z.mod_pos_bound; lia).
      unfold cursor_in_range, num_channels in *. cbn in Hj |- *.
      lia.
  - unfold ensures, acs_fail, bind, emit, modify. cbn [fst snd app].
    right. split; [cbn; lia|]. split; [reflexivity|].
    split; [reflexivity | apply acs_cleanup_clean].
Qed.

Lemma acs_cleanup_chan_disabled (c : hostapd_channel_data) :
  chan_disabled (acs_cleanup_chan c) = chan_disabled c.
Proof.
  unfold chan_disabled.
  destruct (acs_cleanup_chan_frame c) as (_ & _ & -> & _). reflexivity.
Qed.

Lemma survey_data_clean_cleanup (iface : hostapd_iface) (idx : Z) :
  survey_data_clean
    (set_off_channel_freq_idx idx
       (set_acs_num_completed_surveys 0 (acs_cleanup iface))).
Proof.
  destruct (acs_cleanup_clean iface) as (Hall & Hs & _ & _).
  split; [exact Hall|]. split; [exact Hs | reflexivity].
Qed.

Lemma acs_clean_data (iface : hostapd_iface) :
  acs_clean iface -> survey_data_clean iface.
Proof. intros (Hall & Hs & _ & Hp). repeat split; assumption. Qed.

Lemma acs_init_scan_complete_post (d : driver) (iface : hostapd_iface) :
  ensures (acs_init_scan_complete d) iface
    (fun _ iface' t =>
       survey_data_clean iface' /\ dwell_or_done iface' t /\
       (forallb chan_disabled (channels (current_mode iface)) = true ->
        acs_terminal t /\ roc_count t = 0%nat)).
Proof.
  unfold acs_init_scan_complete, ensures, bind, modify. cbn [fst snd].
  set (iface0 := set_acs_num_completed_surveys 0 (acs_cleanup iface)).
  assert (Hdis : forallb chan_disabled (channels (current_mode iface0))
                 = forallb chan_disabled (channels (current_mode iface))).
  { cbn.
    induction (channels (current_mode iface)) as [|c l IH]; [reflexivity|].
    cbn [map forallb]. rewrite acs_cleanup_chan_disabled, IH. reflexivity. }
  destruct (acs_study_next_freq_cases d iface0)
    as [[Hout _]|[(Hin & Hall & E)|(Hin & pre & c & post & Hs & Hpre & Hc & E)]].
  - exfalso. unfold num_channels in Hout. cbn in Hout. lia.
  - rewrite E. cbn [chans_surveyed iface0 acs_cleanup set_chans_surveyed
                    set_off_channel_freq_idx set_acs_num_completed_surveys
                    Z.eqb fst snd app acs_fail bind emit modify].
    cbn.
    split; [apply acs_clean_data, acs_cleanup_clean|].
    split; [|intros _; split; reflexivity].
    right. split; [cbn; lia|]. split; [reflexivity|]. split; [reflexivity|].
    apply acs_cleanup_clean.
  - rewrite E. cbn in Hs.
    assert (Hsome : forallb chan_disabled (channels (current_mode iface))
                    = false).
    { rewrite <- Hdis. cbn. rewrite Hs, forallb_app. cbn. rewrite Hc.
      apply andb_false_r. }
    destruct (Z.ltb_spec (hostapd_drv_remain_on_channel d (freq c)
                            (acs_roc_duration_ms (conf iface0))) 0)
      as [Herr|Herr]; cbn [fst snd app acs_fail bind emit modify].
    + split; [apply acs_clean_data, acs_cleanup_clean|].
      split; [|rewrite Hsome; discriminate].
      right. split; [cbn; lia|].
      split; [cbn; apply orb_false_iff; split;
              [apply Z.leb_gt; exact Herr | reflexivity]|].
      split; [reflexivity | apply acs_cleanup_clean].
    + split; [apply survey_data_clean_cleanup|].
      split; [|rewrite Hsome; discriminate].
      left. split; [reflexivity|].
      split; [cbn; apply orb_true_iff; left; apply Z.leb_le; exact Herr|].
      split; [reflexivity|].
      assert (Hlen : Z.of_nat (length pre)
                     < num_channels (current_mode iface0)).
      { unfold num_channels. cbn. rewrite Hs, length_app. cbn. lia. }
      unfold cursor_in_range. cbn in *. lia.
Qed.

Lemma dwell_or_done_cursor (iface' : hostapd_iface) (t : list acs_effect) :
  dwell_or_done iface' t -> cursor_in_range iface'.
Proof.
  intros [(_ & _ & _ & H & _)|(_ & _ & _ & H)];
    [exact H | apply acs_clean_cursor; exact H].
Qed.

Lemma acs_init_cases (d : driver) (iface : hostapd_iface) :
  acs_init d iface
  = if negb (chans_surveyed iface =? 0) then
      (HOSTAPD_CHAN_INVALID, iface,
       [LogError "ACS: no usable channels found"])
    else if Z.land (drv_flags iface) WPA_DRIVER_FLAGS_OFFCHANNEL_TX =? 0 then
      (HOSTAPD_CHAN_INVALID, iface,
       [LogError "ACS: offchannel TX support required"])
    else if hostapd_driver_scan d <? 0 then
      (HOSTAPD_CHAN_INVALID, iface,
       [DrvScan (hostapd_driver_scan d);
        LogError "ACS: Failed to request initial scan"])
    else
      (HOSTAPD_CHAN_ACS, set_scan_cb (Some acs_init_scan_complete_cb) iface,
       [DrvScan (hostapd_driver_scan d)]).
Proof.
  unfold acs_init, acs_sanity_check, acs_init_scan, bind, get, emit, modify, ret.
  cbn [fst snd].
  destruct (chans_surveyed iface =? 0); cbn; [|reflexivity].
  destruct (Z.land (drv_flags iface) WPA_DRIVER_FLAGS_OFFCHANNEL_TX =? 0);
    cbn; [reflexivity|].
  destruct (hostapd_driver_scan d <? 0); reflexivity.
Qed.

(** ** The engine as a whole *)

Lemma acs_handle_cursor (ev : acs_event) (iface : hostapd_iface) :
  cursor_in_range iface ->
  ensures (acs_handle ev) iface (fun _ iface' _ => cursor_in_range iface').
Proof.
  intros Hin.
  destruct ev as [d|d|f duration roc_status|d f duration roc_status];
    cbn [acs_handle].
  - unfold ensures, bind, ret. rewrite acs_init_cases.
    destruct (negb _); [exact Hin|].
    destruct (_ =? 0); [exact Hin|].
    destruct (_ <? 0); exact Hin.
  - apply ensures_bind, ensures_get.
    destruct (scan_cb iface) as [[]|]; [|exact Hin].
    eapply ensures_mono; [apply acs_init_scan_complete_post|].
    intros u iface' t (_ & H & _). cbn beta.
    exact (dwell_or_done_cursor _ _ H).
  - unfold hostapd_notify_acs_roc.
    destruct (negb _); [|exact Hin].
    apply acs_clean_cursor, acs_cleanup_clean.
  - unfold hostapd_notify_acs_roc_cancel.
    destruct (negb _); [apply acs_clean_cursor, acs_cleanup_clean|].
    eapply ensures_mono; [apply acs_roc_next_dwell_or_done|].
    intros u iface' t H. exact (dwell_or_done_cursor _ _ H).
Qed.

(** X5. The cursor never points past the channel array: if it is within
    [0 .. num_channels] before a sequence of events, it is within
    [0 .. num_channels] after it, whatever the events and whatever the
    driver answers (the survey dump may even replace the channel array). *)
Theorem acs_run_cursor_in_range (evs : list acs_event)
  (iface : hostapd_iface) :
  cursor_in_range iface -> cursor_in_range (iface_after evs iface).
Proof.
  unfold iface_after. revert iface.
  induction evs as [|ev evs IH]; intros iface Hin; cbn [acs_run];
    [exact Hin|].
  change (ensures (bind (acs_handle ev) (fun _ => acs_run evs)) iface
            (fun _ iface' _ => cursor_in_range iface')).
  apply ensures_bind.
  eapply ensures_mono; [apply acs_handle_cursor; exact Hin|].
  intros u iface' t H. apply IH. exact H.
Qed.

(** X6. Each end of a dwell, and the completion of the initial scan,
    either puts exactly one new dwell under way (one request, accepted by
    the driver, the cursor on a channel of the array, the invocation not
    ended) or ends the invocation (the trace is terminal, the state is
    clean, and no request was accepted); never both, and never more than
    one request. *)
Theorem dwell_started_or_invocation_ended (d : driver)
  (f duration roc_status : Z) (iface : hostapd_iface) :
  let dichotomy := fun (r : unit * hostapd_iface * list acs_effect) =>
    (roc_count (snd r) = 1%nat /\
     existsb accepted_roc (snd r) = true /\
     existsb is_terminal_effect (snd r) = false /\
     0 <= off_channel_freq_idx (snd (fst r))
       < num_channels (current_mode (snd (fst r)))) \/
    ((roc_count (snd r) <= 1)%nat /\
     existsb accepted_roc (snd r) = false /\
     existsb is_terminal_effect (snd r) = true /\
     acs_clean (snd (fst r))) in
  dichotomy (hostapd_notify_acs_roc_cancel d f duration roc_status iface) /\
  dichotomy (acs_init_scan_complete d iface).
Proof.
  cbn zeta.
  assert (Hgen : forall m : ACS unit,
            ensures m iface (fun _ iface' t => dwell_or_done iface' t) ->
            (roc_count (snd (m iface)) = 1%nat /\
             existsb accepted_roc (snd (m iface)) = true /\
             existsb is_terminal_effect (snd (m iface)) = false /\
             0 <= off_channel_freq_idx (snd (fst (m iface)))
               < num_channels (current_mode (snd (fst (m iface))))) \/
            ((roc_count (snd (m iface)) <= 1)%nat /\
             existsb accepted_roc (snd (m iface)) = false /\
             existsb is_terminal_effect (snd (m iface)) = true /\
             acs_clean (snd (fst (m iface))))).
  { unfold ensures, dwell_or_done, cursor_in_range, acs_terminal.
    intros m [(H1 & H2 & H3 & H4 & H5)|H]; [left | right; exact H].
    repeat split; try assumption; lia. }
  split; apply Hgen.
  - unfold hostapd_notify_acs_roc_cancel.
    destruct (negb _); [|apply acs_roc_next_dwell_or_done].
    right. split; [cbn; lia|]. split; [reflexivity|].
    split; [reflexivity | apply acs_cleanup_clean].
  - eapply ensures_mono; [apply acs_init_scan_complete_post|].
    intros u iface' t (_ & H & _). exact H.
Qed.

(** X7. [acs_init] changes nothing when it returns INVALID and only
    stores the scan continuation when it returns ACS; it asks the driver
    to scan only after both sanity checks have passed, and it makes no
    remain-on-channel request, calls no bring-up and never runs
    [acs_fail]. *)
Theorem acs_init_effect (d : driver) (iface : hostapd_iface) :
  let r := acs_init d iface in
  (fst (fst r) = HOSTAPD_CHAN_INVALID -> snd (fst r) = iface) /\
  (fst (fst r) = HOSTAPD_CHAN_ACS ->
   snd (fst r) = set_scan_cb (Some acs_init_scan_complete_cb) iface) /\
  (existsb is_scan (snd r) = true ->
   chans_surveyed iface = 0 /\
   Z.land (drv_flags iface) WPA_DRIVER_FLAGS_OFFCHANNEL_TX <> 0) /\
  roc_count (snd r) = 0%nat /\
  existsb is_completed (snd r) = false /\
  existsb is_terminal_effect (snd r) = false.
Proof.
  cbn zeta. rewrite acs_init_cases.
  destruct (Z.eqb_spec (chans_surveyed iface) 0) as [Hs|Hs]; cbn [negb];
    [|cbn; repeat split; discriminate].
  destruct (Z.eqb_spec (Z.land (drv_flags iface)
                          WPA_DRIVER_FLAGS_OFFCHANNEL_TX) 0) as [Hf|Hf];
    [cbn; repeat split; discriminate|].
  destruct (hostapd_driver_scan d <? 0); cbn;
    repeat split; try discriminate; assumption.
Qed.


(** X9. [acs_study_complete] counts the pass (modulo [2 ^ 32]).  With
    passes left it restarts at the first enabled channel: either one
    accepted dwell is under way and only the pass counter and the cursor
    have changed (the surveys gathered so far are kept), or the invocation
    fails, the state is cleaned and the bring-up is not called.  With no
    pass left it decides: the state ends clean, no request is made, and
    [conf] is written only together with a call of the bring-up, with the
    number of a usable channel; it stays written when the bring-up
    fails. *)
Theorem acs_study_complete_outcome (d : driver) (iface : hostapd_iface) :
  let passes := u32 (acs_num_completed_surveys iface + 1) in
  let r := acs_study_complete d iface in
  (passes < acs_num_req_surveys (conf iface) ->
   (roc_count (snd r) = 1%nat /\
    existsb accepted_roc (snd r) = true /\
    existsb is_terminal_effect (snd r) = false /\
    exists j, 0 <= j < num_channels (current_mode iface) /\
      snd (fst r) = set_off_channel_freq_idx j
                      (set_acs_num_completed_surveys passes iface)) \/
   (existsb accepted_roc (snd r) = false /\
    existsb is_terminal_effect (snd r) = true /\
    existsb is_completed (snd r) = false /\
    snd (fst r) = acs_cleanup iface)) /\
  (acs_num_req_surveys (conf iface) <= passes ->
   existsb is_terminal_effect (snd r) = true /\
   roc_count (snd r) = 0%nat /\
   acs_clean (snd (fst r)) /\
   ((existsb is_completed (snd r) = false /\
     conf (snd (fst r)) = conf iface) \/
    (existsb is_completed (snd r) = true /\
     chans_surveyed iface <> 0 /\
     exists j c,
       nth_error (channels (current_mode iface)) j = Some c /\
       acs_usable_chan c = true /\
       conf (snd (fst r)) = conf (set_conf_channel (chan c) iface)))).
Proof.
  cbn zeta.
  pose proof (acs_study_complete_post d iface) as H.
  unfold ensures, study_complete_post in H. cbn zeta in H.
  destruct (Z.ltb_spec (u32 (acs_num_completed_surveys iface + 1))
                       (acs_num_req_surveys (conf iface))) as [Hlt|Hge].
  - split; [intros _ | intros Hc; lia].
    destruct H as [H|(_ & Ha & Ht & Hb & Hs)]; [left; exact H | right].
    repeat split; assumption.
  - split; [intros Hc; lia | intros _]. exact H.
Qed.

(** ** The scan of the selector leaves the rest alone *)

Lemma scanned_frame (iface : hostapd_iface) (c : hostapd_channel_data) :
  chan (scanned iface c) = chan c /\ freq (scanned iface c) = freq c /\
  flag (scanned iface c) = flag c /\
  survey_list (scanned iface c) = survey_list c /\
  survey_count (scanned iface c) = survey_count c /\
  min_nf (scanned iface c) = min_nf c.
Proof.
  unfold scanned. destruct (acs_usable_chan c); [|repeat split].
  apply (acs_chan_interference_factor_frame iface c).
Qed.

(** X10. [acs_find_ideal_chan] changes nothing but the
    [survey_interference_factor] of usable channels: the configuration,
    the cursor, the counters, [lowest_nf], the driver flags and the stored
    continuation are as before, every channel keeps its number, frequency,
    flags, surveys, survey count and [min_nf], and a channel that is not
    usable is left exactly as it was. *)
Theorem acs_find_ideal_chan_frame (iface : hostapd_iface) :
  let iface' := snd (acs_find_ideal_chan iface) in
  let chs := channels (current_mode iface) in
  let chs' := channels (current_mode iface') in
  (conf iface' = conf iface /\
   off_channel_freq_idx iface' = off_channel_freq_idx iface /\
   chans_surveyed iface' = chans_surveyed iface /\
   acs_num_completed_surveys iface' = acs_num_completed_surveys iface /\
   lowest_nf iface' = lowest_nf iface /\
   drv_flags iface' = drv_flags iface /\
   scan_cb iface' = scan_cb iface) /\
  (map chan chs' = map chan chs /\ map freq chs' = map freq chs /\
   map flag chs' = map flag chs /\
   map survey_list chs' = map survey_list chs /\
   map survey_count chs' = map survey_count chs /\
   map min_nf chs' = map min_nf chs) /\
  (forall k c, nth_error chs k = Some c -> acs_usable_chan c = false ->
               nth_error chs' k = Some c).
Proof.
  cbn zeta. rewrite acs_find_ideal_chan_state. cbn.
  split; [repeat split|]. split.
  - repeat split; rewrite map_map; apply map_ext; intros c;
      apply (scanned_frame iface c).
  - intros k c Hk Hu. rewrite nth_error_map, Hk. cbn.
    unfold scanned. rewrite Hu. reflexivity.
Qed.

Lemma acs_usable_chan_inv (c : hostapd_channel_data) :
  acs_usable_chan c = true ->
  survey_count c <> 0 /\ dl_list_empty (survey_list c) = false /\
  chan_disabled c = false.
Proof.
  unfold acs_usable_chan.
  destruct (Z.eqb_spec (survey_count c) 0) as [E|N]; [discriminate|].
  destruct (dl_list_empty (survey_list c)); [discriminate|].
  destruct (chan_disabled c); [discriminate|].
  intros _. repeat split. exact N.
Qed.

(** X11. The scan of [acs_find_ideal_chan] never divides by a zero survey
    count: every channel of the array is afterwards either exactly as it
    was (it was not usable), or it had a non-zero [survey_count] and its
    [survey_interference_factor] is the accumulated sum divided by that
    count.  ([acs_chan_interference_factor] on its own does divide by zero
    for an enabled channel with surveys and a zero count.) *)
Theorem acs_find_ideal_chan_divisor (iface : hostapd_iface) (k : nat)
  (c : hostapd_channel_data) :
  nth_error (channels (current_mode iface)) k = Some c ->
  nth_error (channels (current_mode (snd (acs_find_ideal_chan iface)))) k
  = Some (if acs_usable_chan c
          then set_survey_interference_factor
                 (ld_div (accumulated iface c) (ld_of_Z (survey_count c))) c
          else c) /\
  (acs_usable_chan c = true -> survey_count c <> 0).
Proof.
  intros Hk.
  rewrite acs_find_ideal_chan_state. cbn.
  rewrite nth_error_map, Hk. cbn. unfold scanned.
  destruct (acs_usable_chan c) eqn:Hu.
  - destruct (acs_usable_chan_inv c Hu) as (Hn & He & Hd).
    split; [|intros _; exact Hn].
    unfold acs_chan_interference_factor.
    rewrite He, Hd. cbn [orb].
    pose proof (acif_fold_frame iface (survey_list c) c) as H.
    pose proof (acif_fold_score iface (survey_list c) c) as Hs.
    cbn zeta in H.
    destruct (fold_left _ (survey_list c) c) as [a b f l n m x].
    unfold set_survey_interference_factor, accumulated.
    cbn in *. destruct H as (-> & -> & -> & -> & -> & ->).
    rewrite Hs. reflexivity.
  - split; [reflexivity | discriminate].
Qed.

End Coverage.

(** ** The factor in exact arithmetic *)

Section CoverageExamples.

#[local] Existing Instance xreal_long_double.
#[local] Existing Instance hostapd_masks.

(** X13. In exact arithmetic, for a well-formed measurement and a signed
    8-bit reference, the factor is minus infinity whenever the noise floor
    is below the reference or 64 dB or more above it: the multiplier has
    wrapped to zero, whatever the busy time. *)
Theorem acs_survey_interference_factor_saturates (s : freq_survey) (m : Z) :
  survey_wf s ->
  -128 <= m <= 127 ->
  nf s < m \/ 64 <= nf s - m ->
  acs_survey_interference_factor s m = NInf.
Proof.
  intros (Htx & Hb & Ht & Hnf) Hm Hout.
  assert (Hp : base_to_power 2 (u64 (nf s - m)) = 0).
  { rewrite base_to_power_spec;
      [|lia | unfold u64; apply Z.mod_pos_bound; lia].
    apply pow2_mod_wraps.
    destruct Hout as [Hneg|Hbig].
    - assert (E : u64 (nf s - m) = nf s - m + 2 ^ 64)
        by (unfold u64; symmetry; apply (Z.mod_unique _ _ (-1)); lia).
      rewrite E. lia.
    - assert (E : u64 (nf s - m) = nf s - m)
        by (unfold u64; apply Z.mod_small; lia).
      rewrite E. exact Hbig. }
  unfold acs_survey_interference_factor. rewrite Hp.
  cbn [ld_of_Z ld_div ld_mul ld_log2 xreal_long_double].
  assert (H2 : u64 (channel_time s - channel_time_tx s)
               = channel_time s - channel_time_tx s)
    by (unfold u64; apply Z.mod_small; lia).
  rewrite H2, xreal_div_fin by (apply not_0_IZR; lia).
  cbn [xreal_mul]. apply xreal_log2_zero. lra.
Qed.

Lemma acs_survey_interference_factor_saturates_witness :
  acs_survey_interference_factor (plain_survey 500 (-95)) (-90) = NInf /\
  acs_survey_interference_factor (plain_survey 500 (-20)) (-90) = NInf.
Proof.
  split.
  - apply (acs_survey_interference_factor_saturates
             (plain_survey 500 (-95)) (-90));
      [unfold survey_wf; cbn; lia | lia | left; cbn; lia].
  - apply (acs_survey_interference_factor_saturates
             (plain_survey 500 (-20)) (-90));
      [unfold survey_wf; cbn; lia | lia | right; cbn; lia].
Defined.

(** ** Witnesses on the scenario *)

Lemma acs_study_next_freq_outcome_witness :
  exists j c,
    1 <= j < 2 /\
    nth_error (channels (current_mode fresh_iface)) (Z.to_nat j) = Some c /\
    chan_disabled c = false /\
    0 <= hostapd_drv_remain_on_channel (reporting_driver reported_surveys)
           (freq c) 100 /\
    snd (fst (acs_study_next_freq (reporting_driver reported_surveys)
                (set_off_channel_freq_idx 1 fresh_iface)))
    = set_off_channel_freq_idx j (set_off_channel_freq_idx 1 fresh_iface) /\
    snd (acs_study_next_freq (reporting_driver reported_surveys)
           (set_off_channel_freq_idx 1 fresh_iface))
    = [DrvRemainOnChannel c (freq c) 100
         (hostapd_drv_remain_on_channel (reporting_driver reported_surveys)
            (freq c) 100)] /\
    forall k ck,
      1 <= k < j ->
      nth_error (channels (current_mode fresh_iface)) (Z.to_nat k) = Some ck ->
      chan_disabled ck = true.
Proof.
  assert (H : 0 <= off_channel_freq_idx (set_off_channel_freq_idx 1 fresh_iface))
    by (cbn; lia).
  exact (acs_study_next_freq_outcome (reporting_driver reported_surveys)
           (set_off_channel_freq_idx 1 fresh_iface) H).
Defined.

Lemma acs_run_cursor_in_range_witness :
  cursor_in_range fresh_iface /\
  cursor_in_range (iface_after one_invocation fresh_iface).
Proof.
  assert (H : cursor_in_range fresh_iface)
    by (unfold cursor_in_range; cbn; lia).
  split; [exact H|].
  apply (acs_run_cursor_in_range one_invocation fresh_iface H).
Defined.

Lemma acs_find_ideal_chan_divisor_witness :
  nth_error (channels (current_mode
                         (snd (acs_find_ideal_chan surveyed_iface)))) 1
  = Some (if acs_usable_chan
               (deposit_chan 2437 (reported_surveys 2437) (fresh_chan 6 2437))
          then set_survey_interference_factor
                 (ld_div (accumulated surveyed_iface
                            (deposit_chan 2437 (reported_surveys 2437)
                               (fresh_chan 6 2437)))
                         (ld_of_Z (survey_count
                            (deposit_chan 2437 (reported_surveys 2437)
                               (fresh_chan 6 2437)))))
                 (deposit_chan 2437 (reported_surveys 2437)
                    (fresh_chan 6 2437))
          else deposit_chan 2437 (reported_surveys 2437) (fresh_chan 6 2437)) /\
  (acs_usable_chan
     (deposit_chan 2437 (reported_surveys 2437) (fresh_chan 6 2437)) = true ->
   survey_count
     (deposit_chan 2437 (reported_surveys 2437) (fresh_chan 6 2437)) <> 0).
Proof.
  apply (acs_find_ideal_chan_divisor surveyed_iface 1
           (deposit_chan 2437 (reported_surveys 2437) (fresh_chan 6 2437))).
  reflexivity.
Defined.

End CoverageExamples.

(** ** One pass over the channels *)

Section Pass.

Context {LD : LongDouble} {K : AcsConstants}.

Lemma enabled_freqs_radio (l1 l2 : list hostapd_channel_data) :
  radio l1 = radio l2 -> enabled_freqs l1 = enabled_freqs l2.
Proof.
  revert l2.
  induction l1 as [|c1 l1 IH]; intros [|c2 l2] H; try discriminate;
    [reflexivity|].
  cbn in H. injection H as Hflag Hfreq Hrest.
  assert (Hd : chan_disabled c1 = chan_disabled c2)
    by (unfold chan_disabled; rewrite Hflag; reflexivity).
  pose proof (IH l2 Hrest) as IH'.
  unfold enabled_freqs in IH' |- *. cbn [filter]. rewrite Hd.
  destruct (chan_disabled c2); cbn [negb map];
    [exact IH' | rewrite Hfreq, IH'; reflexivity].
Qed.

Lemma radio_length (l1 l2 : list hostapd_channel_data) :
  radio l1 = radio l2 -> length l1 = length l2.
Proof.
  intros H. apply (f_equal (@length _)) in H.
  unfold radio in H. rewrite !length_map in H. exact H.
Qed.

Lemma radio_skipn (k : nat) (l1 l2 : list hostapd_channel_data) :
  radio l1 = radio l2 -> radio (skipn k l1) = radio (skipn k l2).
Proof.
  intros H. unfold radio in *. rewrite <- !skipn_map, H. reflexivity.
Qed.

Lemma radio_cleanup (l : list hostapd_channel_data) :
  radio (map acs_cleanup_chan l) = radio l.
Proof.
  unfold radio. rewrite map_map. apply map_ext. intros c.
  destruct (acs_cleanup_chan_frame c) as (_ & -> & -> & _). reflexivity.
Qed.

Lemma enabled_freqs_disabled (l : list hostapd_channel_data) :
  forallb chan_disabled l = true -> enabled_freqs l = [].
Proof.
  induction l as [|c l IH]; [reflexivity|].
  cbn [forallb]. intros H. apply andb_true_iff in H. destruct H as [Hc Hl].
  unfold enabled_freqs in *. cbn [filter]. rewrite Hc. cbn [negb].
  apply IH. exact Hl.
Qed.

Lemma enabled_freqs_split (pre post : list hostapd_channel_data)
  (c : hostapd_channel_data) :
  forallb chan_disabled pre = true -> chan_disabled c = false ->
  enabled_freqs (pre ++ c :: post) = freq c :: enabled_freqs post.
Proof.
  intros Hpre Hc. unfold enabled_freqs.
  rewrite filter_app, map_app.
  change (map freq (filter (fun c0 => negb (chan_disabled c0)) pre))
    with (enabled_freqs pre).
  rewrite (enabled_freqs_disabled pre Hpre). cbn [app filter].
  rewrite Hc. reflexivity.
Qed.

Lemma skipn_past (pre post : list hostapd_channel_data)
  (c : hostapd_channel_data) (chs : list hostapd_channel_data) (idx : Z) :
  0 <= idx ->
  skipn (Z.to_nat idx) chs = pre ++ c :: post ->
  skipn (Z.to_nat (idx + Z.of_nat (length pre) + 1)) chs = post.
Proof.
  intros Hidx E.
  replace (Z.to_nat (idx + Z.of_nat (length pre) + 1))
    with (S (length pre) + Z.to_nat idx)%nat by lia.
  rewrite <- skipn_skipn, E.
  replace (S (length pre)) with (length (pre ++ [c]))
    by (rewrite length_app; cbn; lia).
  replace (pre ++ c :: post) with ((pre ++ [c]) ++ post)
    by (rewrite <- app_assoc; reflexivity).
  apply skipn_length_app.
Qed.

(** With a driver that accepts, the iterator requests the first enabled
    frequency from the cursor on and parks the cursor there. *)
Lemma acs_study_next_freq_pending (d : driver) (iface : hostapd_iface)
  (g : Z) (rest : list Z) :
  (forall f duration, 0 <= hostapd_drv_remain_on_channel d f duration) ->
  0 <= off_channel_freq_idx iface <= num_channels (current_mode iface) ->
  enabled_freqs (skipn (Z.to_nat (off_channel_freq_idx iface))
                       (channels (current_mode iface))) = g :: rest ->
  exists j,
    0 <= j /\
    fst (fst (acs_study_next_freq d iface)) = HOSTAPD_CHAN_ACS /\
    snd (fst (acs_study_next_freq d iface)) = set_off_channel_freq_idx j iface /\
    roc_freqs (snd (acs_study_next_freq d iface)) = [g] /\
    enabled_freqs (skipn (Z.to_nat (j + 1)) (channels (current_mode iface)))
    = rest.
Proof.
  intros Hacc [Hidx Hin] Hg.
  destruct (acs_study_next_freq_cases d iface)
    as [[Hout _]|[(_ & Hall & _)|(_ & pre & c & post & Hs & Hpre & Hc & E)]].
  - lia.
  - rewrite (enabled_freqs_disabled _ Hall) in Hg. discriminate.
  - rewrite Hs, (enabled_freqs_split _ _ _ Hpre Hc) in Hg.
    injection Hg as Hfreq Hrest.
    assert (Herr : (hostapd_drv_remain_on_channel d (freq c)
                      (acs_roc_duration_ms (conf iface)) <? 0) = false)
      by (apply Z.ltb_ge, Hacc).
    rewrite Herr in E. rewrite E. cbn [fst snd].
    exists (off_channel_freq_idx iface + Z.of_nat (length pre)).
    split; [lia|]. split; [reflexivity|]. split; [reflexivity|].
    split; [cbn; rewrite Hfreq; reflexivity|].
    rewrite (skipn_past _ _ _ _ _ Hidx Hs). exact Hrest.
Qed.

Lemma acs_handle_roc_started (f duration : Z) (iface : hostapd_iface) :
  acs_handle (EvRoc f duration 0) iface = (tt, iface, []).
Proof. reflexivity. Qed.

Lemma pending_nonempty_bound (iface : hostapd_iface) (g : Z) (rest : list Z) :
  0 <= off_channel_freq_idx iface ->
  pending iface = g :: rest ->
  off_channel_freq_idx iface + 1 < num_channels (current_mode iface).
Proof.
  intros Hidx Hp. unfold pending, num_channels in *.
  destruct (Z.lt_ge_cases (off_channel_freq_idx iface + 1)
              (Z.of_nat (length (channels (current_mode iface)))))
    as [H|H]; [exact H|].
  rewrite skipn_all2 in Hp by lia. discriminate.
Qed.

(** The end of a dwell, with a cooperative driver and an enabled channel
    left after the cursor: the next enabled frequency is requested. *)
Lemma acs_handle_dwell_end (d : driver) (f duration : Z)
  (iface : hostapd_iface) (g : Z) (rest : list Z) :
  cooperative d ->
  0 <= off_channel_freq_idx iface ->
  num_channels (current_mode iface) <= 2 ^ 32 ->
  pending iface = g :: rest ->
  let r := acs_handle (EvRocCancel d f duration 0) iface in
  roc_freqs (snd r) = [g] /\
  0 <= off_channel_freq_idx (snd (fst r)) /\
  radio (channels (current_mode (snd (fst r))))
  = radio (channels (current_mode iface)) /\
  pending (snd (fst r)) = rest.
Proof.
  intros [Hacc Hsurvey] Hidx Hn Hp. cbn zeta.
  pose proof (pending_nonempty_bound iface g rest Hidx Hp) as Hlt.
  destruct (Hsurvey iface f) as (Herr & Hradio & Hcur).
  cbn [acs_handle]. unfold hostapd_notify_acs_roc_cancel. cbn [Z.eqb negb].
  unfold acs_roc_next, bind, get, modify, emit. cbn [fst snd].
  destruct (hostapd_drv_survey_freq d iface f) as [err iface1].
  cbn [fst snd] in *. subst err. cbn [Z.eqb negb fst snd].
  set (iface2 := set_off_channel_freq_idx
                   (u32 (off_channel_freq_idx iface1 + 1)) iface1).
  assert (Hu : off_channel_freq_idx iface2 = off_channel_freq_idx iface + 1).
  { cbn. rewrite Hcur. unfold u32. apply Z.mod_small. lia. }
  assert (Hlen : num_channels (current_mode iface2)
                 = num_channels (current_mode iface)).
  { unfold num_channels. cbn. rewrite (radio_length _ _ Hradio). reflexivity. }
  destruct (acs_study_next_freq_pending d iface2 g rest Hacc)
    as (j & Hj & Hst & Hs' & Hfreqs & Hrest).
  { rewrite Hu, Hlen. lia. }
  { rewrite Hu. cbn [iface2 current_mode set_off_channel_freq_idx].
    unfold pending in Hp.
    rewrite <- Hp. apply enabled_freqs_radio, radio_skipn. exact Hradio. }
  destruct (acs_study_next_freq d iface2) as [[st iface3] t3].
  cbn [fst snd] in *. subst st iface3. cbn [fst snd ret app].
  rewrite app_nil_r.
  split; [cbn [roc_freqs flat_map app] in *; exact Hfreqs|].
  split; [cbn; exact Hj|].
  split; [cbn; exact Hradio|].
  unfold pending. cbn. exact Hrest.
Qed.

Lemma roc_freqs_app (t1 t2 : list acs_effect) :
  roc_freqs (t1 ++ t2) = roc_freqs t1 ++ roc_freqs t2.
Proof. unfold roc_freqs. apply flat_map_app. Qed.

Lemma acs_run_dwells (d : driver) (duration : Z) (fs : list Z)
  (iface : hostapd_iface) :
  cooperative d ->
  0 <= off_channel_freq_idx iface ->
  num_channels (current_mode iface) <= 2 ^ 32 ->
  (length fs <= length (pending iface))%nat ->
  roc_freqs (snd (acs_run (dwells d duration fs) iface))
  = firstn (length fs) (pending iface).
Proof.
  intros Hd. revert iface.
  induction fs as [|f fs IH]; intros iface Hidx Hn Hlen; [reflexivity|].
  destruct (pending iface) as [|g rest] eqn:Hp; [cbn in Hlen; lia|].
  destruct (acs_handle_dwell_end d f duration iface g rest Hd Hidx Hn Hp)
    as (Hfreqs & Hidx' & Hradio & Hrest).
  cbn [dwells flat_map app acs_run].
  change (flat_map (fun f0 => [EvRoc f0 duration 0;
                                EvRocCancel d f0 duration 0]) fs)
    with (dwells d duration fs).
  unfold bind at 1. rewrite acs_handle_roc_started.
  unfold bind at 1.
  destruct (acs_handle (EvRocCancel d f duration 0) iface)
    as [[u iface'] t'].
  cbn [fst snd] in *.
  specialize (IH iface' Hidx').
  destruct (acs_run (dwells d duration fs) iface') as [[u2 iface2] t2].
  cbn [fst snd app length firstn] in *.
  rewrite roc_freqs_app, Hfreqs, IH; [rewrite Hrest; reflexivity | |].
  - unfold num_channels in *. rewrite (radio_length _ _ Hradio). exact Hn.
  - rewrite Hrest. cbn in Hlen. lia.
Qed.

(** X14. One pass dwells once on every enabled channel, in array order,
    and on no other.  With a driver that accepts every request and whose
    survey dump succeeds and leaves flags, frequencies and cursor alone:
    after the initial scan has completed and [length fs] dwells have ended
    (fewer than there are enabled channels), the engine has requested
    exactly the first [length fs + 1] enabled frequencies. *)
Theorem one_dwell_per_enabled_channel (d : driver) (duration : Z)
  (fs : list Z) (iface : hostapd_iface) :
  cooperative d ->
  scan_cb iface = Some acs_init_scan_complete_cb ->
  num_channels (current_mode iface) <= 2 ^ 32 ->
  (length fs < length (enabled_freqs (channels (current_mode iface))))%nat ->
  roc_freqs (trace_of (EvScanComplete d :: dwells d duration fs) iface)
  = firstn (S (length fs)) (enabled_freqs (channels (current_mode iface))).
Proof.
  intros Hd Hcb Hn Hlen.
  destruct (enabled_freqs (channels (current_mode iface))) as [|g rest] eqn:He;
    [cbn in Hlen; lia|].
  unfold trace_of. cbn [acs_run acs_handle].
  unfold bind at 1. unfold bind at 1. unfold get at 1. cbn [fst snd].
  rewrite Hcb.
  unfold acs_init_scan_complete, bind, modify. cbn [fst snd].
  set (iface0 := set_acs_num_completed_surveys 0 (acs_cleanup iface)).
  assert (Hradio : radio (channels (current_mode iface0))
                   = radio (channels (current_mode iface)))
    by (cbn; apply radio_cleanup).
  destruct (acs_study_next_freq_pending d iface0 g rest (proj1 Hd))
    as (j & Hj & Hst & Hs' & Hfreqs & Hrest).
  { unfold num_channels. cbn. lia. }
  { cbn [off_channel_freq_idx iface0 acs_cleanup
         set_acs_num_completed_surveys set_off_channel_freq_idx
         Z.to_nat skipn].
    rewrite <- He. apply enabled_freqs_radio. exact Hradio. }
  destruct (acs_study_next_freq d iface0) as [[st iface1] t1].
  cbn [fst snd] in *. subst st iface1. cbn [fst snd ret app].
  pose proof (acs_run_dwells d duration fs
                (set_off_channel_freq_idx j iface0) Hd) as Hrun.
  destruct (acs_run (dwells d duration fs)
              (set_off_channel_freq_idx j iface0)) as [[u iface2] t2].
  cbn [fst snd] in *.
  rewrite app_nil_r, roc_freqs_app, Hfreqs.
  cbn [app firstn]. f_equal.
  assert (Hp : pending (set_off_channel_freq_idx j iface0) = rest)
    by exact Hrest.
  rewrite Hp in Hrun. apply Hrun.
  - exact Hj.
  - unfold num_channels in *. cbn. rewrite length_map. exact Hn.
  - cbn in Hlen. lia.
Qed.

End Pass.

Section PassDriver.

Context {LD : LongDouble} {K : AcsConstants}.

Lemma radio_deposit (f : Z) (reported : list freq_survey)
  (l : list hostapd_channel_data) :
  radio (map (deposit_chan f reported) l) = radio l.
Proof.
  unfold radio. rewrite map_map. apply map_ext. intros c.
  unfold deposit_chan. destruct (_ && _); reflexivity.
Qed.

Lemma reporting_driver_cooperative (reported : Z -> list freq_survey) :
  cooperative (reporting_driver reported).
Proof.
  split; [intros f duration; cbn; lia|].
  intros iface f. cbn [reporting_driver hostapd_drv_survey_freq].
  unfold survey_deposit.
  destruct (surveyed_chans _) as [|c seen]; cbn [fst snd];
    (split; [reflexivity|]); (split; [|reflexivity]); cbn;
    apply radio_deposit.
Qed.

End PassDriver.

Section PassExamples.

#[local] Existing Instance xreal_long_double.
#[local] Existing Instance hostapd_masks.

Lemma one_dwell_per_enabled_channel_witness :
  roc_freqs
    (trace_of
       (EvScanComplete (reporting_driver reported_surveys)
        :: dwells (reporting_driver reported_surveys) 100 [2412])
       (set_scan_cb (Some acs_init_scan_complete_cb) fresh_iface))
  = [2412; 2437].
Proof.
  apply (one_dwell_per_enabled_channel
           (reporting_driver reported_surveys) 100 [2412]
           (set_scan_cb (Some acs_init_scan_complete_cb) fresh_iface)
           (reporting_driver_cooperative reported_surveys)).
  - reflexivity.
  - cbn. lia.
  - cbn. lia.
Defined.

End PassExamples.

(** ** The factor never decreases with the busy time or the noise floor *)

Section Monotone.

Context {LD : LongDouble}.



End Monotone.

Section MonotoneExamples.

Open Scope R_scope.

Lemma xreal_fin_le (a b : R) : a <= b -> xreal_lt (Fin b) (Fin a) = false.
Proof. apply xreal_lt_fin_not. Qed.

Lemma xreal_fin_le_inv (a b : R) : xreal_lt (Fin b) (Fin a) = false -> a <= b.
Proof.
  unfold xreal_lt. destruct (Rlt_dec b a) as [L|N]; [discriminate | lra].
Qed.

Ltac xreal_cases :=
  repeat match goal with
         | |- context [Req_dec_T ?r 0] => destruct (Req_dec_T r 0)
         | |- context [Rlt_dec ?a ?b] => destruct (Rlt_dec a b)
         end;
  try reflexivity; try discriminate; try lra.

Lemma xreal_div_monotone (x y : xreal) (den : R) :
  0 <= den -> xreal_lt y x = false ->
  xreal_lt (xreal_div y (Fin den)) (xreal_div x (Fin den)) = false.
Proof.
  intros Hden H.
  destruct x as [a| | |], y as [b| | |];
    try reflexivity; try discriminate;
    try apply xreal_fin_le_inv in H;
    unfold xreal_div; xreal_cases.
  apply xreal_fin_le.
  apply Rmult_le_compat_r; [apply Rlt_le, Rinv_0_lt_compat; lra | exact H].
Qed.

Lemma xreal_mul_r_monotone (x y : xreal) (p : R) :
  0 <= p -> xreal_lt y x = false ->
  xreal_lt (xreal_mul y (Fin p)) (xreal_mul x (Fin p)) = false.
Proof.
  intros Hp H.
  destruct x as [a| | |], y as [b| | |];
    try reflexivity; try discriminate;
    try apply xreal_fin_le_inv in H;
    unfold xreal_mul, xreal_scale_inf; xreal_cases.
  apply xreal_fin_le, Rmult_le_compat_r; assumption.
Qed.

Lemma xreal_mul_l_monotone (q x y : xreal) :
  xreal_lt q (Fin 0) = false -> xreal_lt y x = false ->
  xreal_lt (xreal_mul q y) (xreal_mul q x) = false.
Proof.
  intros Hq H.
  destruct q as [q| | |]; try discriminate;
    try apply xreal_fin_le_inv in Hq;
    destruct x as [a| | |], y as [b| | |];
    try reflexivity; try discriminate;
    try apply xreal_fin_le_inv in H;
    unfold xreal_mul, xreal_scale_inf; xreal_cases.
  apply xreal_fin_le, Rmult_le_compat_l; assumption.
Qed.

Lemma xreal_log2_monotone (x y : xreal) :
  xreal_lt y x = false -> xreal_lt (xreal_log2 y) (xreal_log2 x) = false.
Proof.
  intros H.
  destruct x as [a| | |], y as [b| | |];
    try reflexivity; try discriminate;
    try apply xreal_fin_le_inv in H;
    unfold xreal_log2;
    repeat match goal with
           | |- context [Req_dec_T ?r 0] => destruct (Req_dec_T r 0)
           | |- context [Rlt_dec 0 ?r] => destruct (Rlt_dec 0 r)
           end;
    try reflexivity; try discriminate; try lra.
  apply xreal_fin_le.
  apply Rmult_le_compat_r; [apply Rlt_le, Rinv_0_lt_compat, ln2_pos|].
  destruct (Req_dec_T a b) as [->|N]; [lra|].
  apply Rlt_le, ln_increasing; lra.
Qed.

Lemma xreal_div_nonneg (a den : R) :
  0 <= a -> 0 <= den ->
  xreal_lt (xreal_div (Fin a) (Fin den)) (Fin 0) = false.
Proof.
  intros Ha Hden. unfold xreal_div. xreal_cases.
  apply xreal_fin_le, Rmult_le_pos; [exact Ha | apply Rlt_le, Rinv_0_lt_compat; lra].
Qed.


Section Rounding.

Variable rnd : R -> R.
Hypothesis rnd_monotone : forall a b, a <= b -> rnd a <= rnd b.
Hypothesis rnd_zero : rnd 0 = 0.

Lemma rnd_nonneg (a : R) : 0 <= a -> 0 <= rnd a.
Proof. intros Ha. rewrite <- rnd_zero. apply rnd_monotone, Ha. Qed.

Lemma xreal_round_monotone (x y : xreal) :
  xreal_lt y x = false ->
  xreal_lt (xreal_round rnd y) (xreal_round rnd x) = false.
Proof.
  intros H.
  destruct x as [a| | |], y as [b| | |];
    try reflexivity; try discriminate.
  apply xreal_fin_le, rnd_monotone, xreal_fin_le_inv, H.
Qed.

Lemma xreal_round_nonneg (q : xreal) :
  xreal_lt q (Fin 0) = false -> xreal_lt (xreal_round rnd q) (Fin 0) = false.
Proof.
  intros H.
  destruct q as [q| | |]; try reflexivity; try discriminate.
  apply xreal_fin_le, rnd_nonneg, xreal_fin_le_inv, H.
Qed.

(** Neither does any arithmetic that rounds its results with a
    non-decreasing function that keeps zero: [ld_monotone] does not ask
    for exactness. *)
Lemma rounded_monotone : @ld_monotone (rounded_long_double rnd).
Proof.
  unfold ld_monotone, ld_le.
  cbn [ld_of_Z ld_div ld_mul ld_log2 ld_lt rounded_long_double].
  split; [|split; [|split; [|split]]].
  - intros a b Hab _. apply xreal_fin_le, rnd_monotone, IZR_le. lia.
  - intros x y den Hden H.
    apply xreal_round_monotone, xreal_div_monotone; [|exact H].
    apply rnd_nonneg, IZR_le. lia.
  - intros x y p Hp H.
    apply xreal_round_monotone, xreal_mul_r_monotone; [|exact H].
    apply rnd_nonneg, IZR_le. lia.
  - intros a den x y Ha Hden H.
    apply xreal_round_monotone, xreal_mul_l_monotone; [|exact H].
    apply xreal_round_nonneg, xreal_div_nonneg;
      apply rnd_nonneg, IZR_le; lia.
  - intros x y H.
    apply xreal_round_monotone, xreal_log2_monotone. exact H.
Qed.

End Rounding.

Close Scope R_scope.

#[local] Existing Instance xreal_long_double.


End MonotoneExamples.
